(** * Cluster-scoped RBAC bindings in a namespace-scoped migration

    A shallow embedding of [pkg/resourcecollector/clusterrole.go]:
    the subject classifier [subjectInNamespace], the extractor
    [prepareClusterRoleBindingForCollection], the remapper
    [prepareClusterRoleBindingForApply] and the merger
    [mergeAndUpdateClusterRoleBinding], together with the parts of the
    Go standard library and of the Kubernetes packages they call.

    Go strings are byte sequences and are modelled as [string]; a Go
    [map[string]V] is a [gmap string V]; a [for ... range] over a map visits
    every entry once in an order the runtime chooses, which is an event
    answered by the environment. *)

From Stdlib Require Import Ascii String.
From stdpp Require Import base decidable option list strings gmap fin_maps.

Set Default Proof Using "Type".
Local Open Scope string_scope.
Local Open Scope list_scope.

(** ** Package [strings] of the Go standard library *)

Module gostrings.

  (** [stripPrefix prefix s] is [Some r] exactly when [s = prefix +:+ r]. *)
Fixpoint stripPrefix (prefix s : string) : option string :=
  match prefix, s with
  | EmptyString, _ => Some s
  | String a p, String b r => if decide (a = b) then stripPrefix p r else None
  | String _ _, EmptyString => None
  end.

  (** [strings.HasPrefix(s, prefix)]. *)
Definition HasPrefix (s prefix : string) : bool :=
  match stripPrefix prefix s with Some _ => true | None => false end.

  (** [strings.TrimPrefix(s, prefix)]: [s] without the leading [prefix];
      [s] itself when it does not start with [prefix]. *)
Definition TrimPrefix (s prefix : string) : string :=
  match stripPrefix prefix s with Some r => r | None => s end.

  (** [strings.Split(s, sep)] for a separator of one byte: the pieces of [s]
      between the occurrences of [sep]; one more piece than occurrences. *)
Fixpoint Split (s : string) (sep : ascii) : list string :=
  match s with
  | EmptyString => [EmptyString]
  | String c r =>
      if decide (c = sep) then EmptyString :: Split r sep
      else match Split r sep with
           | p :: ps => String c p :: ps
           | [] => [String c EmptyString]
           end
  end.

  (** [strings.IndexByte(s, c) >= 0]. *)
Fixpoint ContainsByte (s : string) (c : ascii) : bool :=
  match s with
  | EmptyString => false
  | String b r => if decide (b = c) then true else ContainsByte r c
  end.

End gostrings.

(** ** Go's [error] values that reach this code *)

Module apierrors.

  (** An [error] is either the package-level [invalidUsernameErr] of
      [serviceaccount], or an API status error carrying its reason. *)
Inductive error : Type :=
  | invalidUsernameErr
  | StatusError (reason : string).

  (** [apierrors.IsNotFound(err)]. *)
Definition IsNotFound (err : error) : bool :=
  match err with
  | StatusError reason => bool_decide (reason = "NotFound")
  | invalidUsernameErr => false
  end.

#[global] Instance error_eq_dec : EqDecision error.
Proof. solve_decision. Defined.

End apierrors.
Export apierrors.

(** ** Name validation of [k8s.io/apimachinery] *)

(** Modelled from the spec: [ValidateNamespaceName] and
    [ValidateServiceAccountName] belong to the vendored apimachinery package.
    Each returns the list of validation messages for a name, the empty list
    when the name is acceptable; [SplitUsername] rejects a user name whose
    namespace or account part has any.  The specification leaves open which
    names are acceptable, so the development is parametric in the two
    functions. *)
Class NameValidation : Type := {
  ValidateNamespaceName : string → bool → list string;
  ValidateServiceAccountName : string → bool → list string
}.

(** ** Package [serviceaccount] of [k8s.io/apiserver] *)

Module serviceaccount.
  Import gostrings.

  (** Modelled from the spec: the prefix of the vendored package for the
      user name of a service account,
      [system:serviceaccount:<namespace>:<account>]. *)
Definition ServiceAccountUsernamePrefix : string := "system:serviceaccount:".

  (** Modelled from the spec: the separator of the vendored package
      between the namespace and the account of such a user name. *)
Definition ServiceAccountUsernameSeparator : ascii := ":"%char.

  (** Modelled from the spec: the prefix of the vendored package for the
      group of the service accounts of a namespace,
      [system:serviceaccounts:<namespace>]. *)
Definition ServiceAccountGroupPrefix : string := "system:serviceaccounts:".

  (** Modelled from the spec: [MakeUsername(namespace, name)] of the
      vendored package, the user name of the convention. *)
Definition MakeUsername (namespace name : string) : string :=
  ServiceAccountUsernamePrefix +:+ namespace
    +:+ String ServiceAccountUsernameSeparator name.

  (** Modelled from the spec: [MakeNamespaceGroupName(namespace)] of the
      vendored package, the group name of the convention. *)
Definition MakeNamespaceGroupName (namespace : string) : string :=
  ServiceAccountGroupPrefix +:+ namespace.

  (** Modelled from the spec: [SplitUsername(username)] of the vendored
      package.  The name must start with the user name prefix, the rest must
      split at the separator into exactly a namespace and an account, and
      both must be acceptable names; otherwise the result is
      [invalidUsernameErr]. *)
Definition SplitUsername `{NameValidation} (username : string)
    : error + (string * string) :=
  if negb (HasPrefix username ServiceAccountUsernamePrefix) then
    inl invalidUsernameErr
  else
    let trimmed := TrimPrefix username ServiceAccountUsernamePrefix in
    match Split trimmed ServiceAccountUsernameSeparator with
    | [namespace; name] =>
        if negb (Nat.eqb (length (ValidateNamespaceName namespace false)) 0)
        then inl invalidUsernameErr
        else if negb (Nat.eqb (length (ValidateServiceAccountName name false)) 0)
        then inl invalidUsernameErr
        else inr (namespace, name)
    | _ => inl invalidUsernameErr
    end.

End serviceaccount.

(** ** The RBAC objects of [k8s.io/api/rbac/v1] *)

(** Modelled from the spec: the kinds, the subject, the role reference and
    the binding of the vendored API package, with the fields of the Go
    structs. *)
Module rbacv1.

Definition GroupKind : string := "Group".
Definition ServiceAccountKind : string := "ServiceAccount".
Definition UserKind : string := "User".

Record Subject : Type := mkSubject {
  Kind : string;
  APIGroup : string;
  Name : string;
  Namespace : string
}.

Record RoleRef : Type := mkRoleRef {
  RoleRefAPIGroup : string;
  RoleRefKind : string;
  RoleRefName : string
}.

  (** The object metadata; of its many fields the name, the resource
      version and the labels are kept. *)
Record ObjectMeta : Type := mkObjectMeta {
  MetaName : string;
  ResourceVersion : string;
  Labels : list (string * string)
}.

Record ClusterRoleBinding : Type := mkClusterRoleBinding {
  Meta : ObjectMeta;
  Subjects : list Subject;
  Role : RoleRef
}.

#[global] Instance Subject_eq_dec : EqDecision Subject.
Proof. solve_decision. Defined.
#[global] Instance RoleRef_eq_dec : EqDecision RoleRef.
Proof. solve_decision. Defined.
#[global] Instance ObjectMeta_eq_dec : EqDecision ObjectMeta.
Proof. solve_decision. Defined.
#[global] Instance ClusterRoleBinding_eq_dec : EqDecision ClusterRoleBinding.
Proof. solve_decision. Defined.

  (** [subject.Name = name] on a copy of the subject. *)
Definition setName (name : string) (s : Subject) : Subject :=
  mkSubject (Kind s) (APIGroup s) name (Namespace s).

  (** [subject.Namespace = namespace] on a copy of the subject. *)
Definition setNamespace (namespace : string) (s : Subject) : Subject :=
  mkSubject (Kind s) (APIGroup s) (Name s) namespace.

  (** [crb.Subjects = subjects]. *)
Definition setSubjects (subjects : list Subject) (crb : ClusterRoleBinding)
    : ClusterRoleBinding :=
  mkClusterRoleBinding (Meta crb) subjects (Role crb).

End rbacv1.
Export rbacv1.

(** Modelled from the spec: Go's [fmt.Stringer], which [rbacv1.Subject]
    implements in generated code of the vendored API package.  [String_ s] is
    the canonical identity string under which the merger files the subject
    [s]; the merger is parametric in it. *)
Class Stringer (A : Type) : Type := String_ : A → string.

(** ** The subject classifier *)

Section Classifier.
  Context `{NameValidation}.

  (** [subjectInNamespace(subject, namespace)]: a switch on the subject's
      kind whose cases fall out to the final [return false, nil]. *)
Definition subjectInNamespace (subject : Subject) (namespace : string)
    : bool * option error :=
  if decide (Kind subject = ServiceAccountKind) then
    if decide (Namespace subject = namespace) then (true, None)
    else (false, None)
  else if decide (Kind subject = UserKind) then
    match serviceaccount.SplitUsername (Name subject) with
    | inl _ => (false, None)
    | inr (userNamespace, _) =>
        if decide (userNamespace = namespace) then (true, None)
        else (false, None)
    end
  else if decide (Kind subject = GroupKind) then
    let groupNamespace :=
      gostrings.TrimPrefix (Name subject)
        serviceaccount.ServiceAccountUsernamePrefix in
    if decide (groupNamespace = namespace) then (true, None)
    else (false, None)
  else (false, None).

End Classifier.

(** ** The subject extractor *)

Section Extractor.
  Context `{NameValidation}.

  (** The inner loop of the extractor, [for _, ns := range namespaces]:
      [subject] is appended once for every namespace it is in. *)
Fixpoint collectInNamespaces (subject : Subject) (namespaces : list string)
    (subjectsToCollect : list Subject) : error + list Subject :=
  match namespaces with
  | [] => inr subjectsToCollect
  | ns :: rest =>
      let '(collect, err) := subjectInNamespace subject ns in
      match err with
      | Some e => inl e
      | None =>
          collectInNamespaces subject rest
            (if collect then subjectsToCollect ++ [subject]
             else subjectsToCollect)
      end
  end.

  (** The outer loop, [for _, subject := range crb.Subjects]. *)
Fixpoint collectSubjects (subjects : list Subject) (namespaces : list string)
    (subjectsToCollect : list Subject) : error + list Subject :=
  match subjects with
  | [] => inr subjectsToCollect
  | subject :: rest =>
      match collectInNamespaces subject namespaces subjectsToCollect with
      | inl e => inl e
      | inr subjectsToCollect' =>
          collectSubjects rest namespaces subjectsToCollect'
      end
  end.

  (** [prepareClusterRoleBindingForCollection(object, namespaces)]
      between the decoding of the object (line 91) and the encoding of the
      result (line 109): from the decoded binding to the binding with its
      subjects replaced, or the error of a classification.  The whole function
      is [prepareClusterRoleBindingForCollectionObject] below. *)
Definition prepareClusterRoleBindingForCollection
    (crb : ClusterRoleBinding) (namespaces : list string)
    : error + ClusterRoleBinding :=
  match collectSubjects (Subjects crb) namespaces [] with
  | inl e => inl e
  | inr subjectsToCollect => inr (setSubjects subjectsToCollect crb)
  end.

End Extractor.

(** ** Programs that talk to the cluster and to the Go runtime *)

(** A program returns, or asks the cluster client ([k8s.Instance()]) to
    get, create or update a binding, or asks the runtime for the order in
    which a [range] visits a map, and goes on with the answer. *)
Inductive Go (A : Type) : Type :=
  | Ret (a : A)
  | GetClusterRoleBinding (name : string)
      (k : error + ClusterRoleBinding → Go A)
  | CreateClusterRoleBinding (crb : ClusterRoleBinding)
      (k : error + ClusterRoleBinding → Go A)
  | UpdateClusterRoleBinding (crb : ClusterRoleBinding)
      (k : error + ClusterRoleBinding → Go A)
  | RangeMappings (m : gmap string string)
      (k : list (string * string) → Go A)
  | RangeSubjects (m : gmap string Subject)
      (k : list (string * Subject) → Go A).
Arguments Ret {A} a.
Arguments GetClusterRoleBinding {A} name k.
Arguments CreateClusterRoleBinding {A} crb k.
Arguments UpdateClusterRoleBinding {A} crb k.
Arguments RangeMappings {A} m k.
Arguments RangeSubjects {A} m k.

Fixpoint Go_bind {A B : Type} (f : A → Go B) (p : Go A) : Go B :=
  match p with
  | Ret a => f a
  | GetClusterRoleBinding name k =>
      GetClusterRoleBinding name (λ r, Go_bind f (k r))
  | CreateClusterRoleBinding crb k =>
      CreateClusterRoleBinding crb (λ r, Go_bind f (k r))
  | UpdateClusterRoleBinding crb k =>
      UpdateClusterRoleBinding crb (λ r, Go_bind f (k r))
  | RangeMappings m k => RangeMappings m (λ r, Go_bind f (k r))
  | RangeSubjects m k => RangeSubjects m (λ r, Go_bind f (k r))
  end.

#[global] Instance Go_mret : MRet Go := @Ret.
#[global] Instance Go_mbind : MBind Go := @Go_bind.

(** The [err] of a call's [(result, err)]. *)
Definition errOf {A : Type} (r : error + A) : option error :=
  match r with inl e => Some e | inr _ => None end.

(** One call to the cluster client with its answer. *)
Inductive Call : Type :=
  | CallGet (name : string) (resp : error + ClusterRoleBinding)
  | CallCreate (crb : ClusterRoleBinding) (resp : error + ClusterRoleBinding)
  | CallUpdate (crb : ClusterRoleBinding) (resp : error + ClusterRoleBinding).

(** [range_order m order]: [order] is one of the orders in which a [range]
    may visit the entries of the map [m]. *)
Definition range_order {V : Type} (m : gmap string V)
    (order : list (string * V)) : Prop :=
  order ≡ₚ map_to_list m.

(** [runs σ p t σ' a]: from the cluster bindings [σ], the program [p] can
    make the calls [t], leave the bindings [σ'] and return [a].  A get finds
    the binding of that name or reports not-found; any call may fail with an
    API error and then changes nothing. *)
Inductive runs {A : Type} : gmap string ClusterRoleBinding → Go A →
    list Call → gmap string ClusterRoleBinding → A → Prop :=
  | runs_ret σ a : runs σ (Ret a) [] σ a
  | runs_get_found σ name crb k t σ' a :
      σ !! name = Some crb →
      runs σ (k (inr crb)) t σ' a →
      runs σ (GetClusterRoleBinding name k)
        (CallGet name (inr crb) :: t) σ' a
  | runs_get_absent σ name err k t σ' a :
      σ !! name = None →
      IsNotFound err = true →
      runs σ (k (inl err)) t σ' a →
      runs σ (GetClusterRoleBinding name k)
        (CallGet name (inl err) :: t) σ' a
  | runs_get_fail σ name err k t σ' a :
      IsNotFound err = false →
      runs σ (k (inl err)) t σ' a →
      runs σ (GetClusterRoleBinding name k)
        (CallGet name (inl err) :: t) σ' a
  | runs_create_ok σ crb k t σ' a :
      σ !! MetaName (Meta crb) = None →
      runs (<[MetaName (Meta crb) := crb]> σ) (k (inr crb)) t σ' a →
      runs σ (CreateClusterRoleBinding crb k)
        (CallCreate crb (inr crb) :: t) σ' a
  | runs_create_fail σ crb err k t σ' a :
      runs σ (k (inl err)) t σ' a →
      runs σ (CreateClusterRoleBinding crb k)
        (CallCreate crb (inl err) :: t) σ' a
  | runs_update_ok σ crb k t σ' a :
      is_Some (σ !! MetaName (Meta crb)) →
      runs (<[MetaName (Meta crb) := crb]> σ) (k (inr crb)) t σ' a →
      runs σ (UpdateClusterRoleBinding crb k)
        (CallUpdate crb (inr crb) :: t) σ' a
  | runs_update_fail σ crb err k t σ' a :
      runs σ (k (inl err)) t σ' a →
      runs σ (UpdateClusterRoleBinding crb k)
        (CallUpdate crb (inl err) :: t) σ' a
  | runs_range_mappings σ m order k t σ' a :
      range_order m order →
      runs σ (k order) t σ' a →
      runs σ (RangeMappings m k) t σ' a
  | runs_range_subjects σ m order k t σ' a :
      range_order m order →
      runs σ (k order) t σ' a →
      runs σ (RangeSubjects m k) t σ' a.

(** The bindings of a cluster are stored under their own names. *)
Definition cluster_wf (σ : gmap string ClusterRoleBinding) : Prop :=
  ∀ name crb, σ !! name = Some crb → MetaName (Meta crb) = name.

(** ** The subject remapper *)

Section Remapper.
  Context `{NameValidation}.

  (** The [switch subject.Kind] that rewrites a matched subject for the
      destination namespace. *)
Definition rewriteSubject (subject : Subject) (destNamespace : string)
    : error + Subject :=
  if decide (Kind subject = UserKind) then
    match serviceaccount.SplitUsername (Name subject) with
    | inl err => inl err
    | inr (_, username) =>
        inr (setName (serviceaccount.MakeUsername destNamespace username)
               subject)
    end
  else if decide (Kind subject = GroupKind) then
    inr (setName (serviceaccount.MakeNamespaceGroupName destNamespace) subject)
  else if decide (Kind subject = ServiceAccountKind) then
    inr (setNamespace destNamespace subject)
  else inr subject.


  (** The inner loop of the remapper, [for _, subject := range crb.Subjects],
      for one entry of the namespace mapping. *)
Fixpoint applySubjects (subjects : list Subject)
    (sourceNamespace destNamespace : string)
    (subjectsToApply : list Subject) : error + list Subject :=
  match subjects with
  | [] => inr subjectsToApply
  | subject :: rest =>
      let '(collect, err) := subjectInNamespace subject sourceNamespace in
      match err with
      | Some e => inl e
      | None =>
          if negb collect then
            applySubjects rest sourceNamespace destNamespace subjectsToApply
          else
            match rewriteSubject subject destNamespace with
            | inl e => inl e
            | inr subject' =>
                applySubjects rest sourceNamespace destNamespace
                  (subjectsToApply ++ [subject'])
            end
      end
  end.

  (** The outer loop, over the entries of the mapping in the order the
      [range] visits them. *)
Fixpoint applyMappings (order : list (string * string))
    (subjects : list Subject) (subjectsToApply : list Subject)
    : error + list Subject :=
  match order with
  | [] => inr subjectsToApply
  | (sourceNamespace, destNamespace) :: rest =>
      match applySubjects subjects sourceNamespace destNamespace
              subjectsToApply with
      | inl e => inl e
      | inr subjectsToApply' => applyMappings rest subjects subjectsToApply'
      end
  end.

  (** [prepareClusterRoleBindingForApply(object, namespaceMappings)]
      between the decoding of the object (line 123) and the encoding of the
      result (line 154).  The whole function is
      [prepareClusterRoleBindingForApplyObject] below. *)
Definition prepareClusterRoleBindingForApply
    (crb : ClusterRoleBinding) (namespaceMappings : gmap string string)
    : Go (error + ClusterRoleBinding) :=
  order ← RangeMappings namespaceMappings Ret;
  match applyMappings order (Subjects crb) [] with
  | inl e => Ret (inl e)
  | inr subjectsToApply => Ret (inr (setSubjects subjectsToApply crb))
  end.

End Remapper.

(** ** The binding merger *)

Section Merger.
  Context `{Stringer Subject}.

  (** [for _, subject := range subjects { m[subject.String()] = subject }]. *)
Definition insertSubjects (subjects : list Subject)
    (m : gmap string Subject) : gmap string Subject :=
  foldl (λ m subject, <[String_ subject := subject]> m) m subjects.

  (** [mergeAndUpdateClusterRoleBinding(object)] past the decoding of the
      object (line 167), whose whole is
      [mergeAndUpdateClusterRoleBindingObject] below;
      the result is the returned [error], [None] for [nil]. *)
Definition mergeAndUpdateClusterRoleBinding (newCRB : ClusterRoleBinding)
    : Go (option error) :=
  r ← GetClusterRoleBinding (MetaName (Meta newCRB)) Ret;
  match r with
  | inl err =>
      if IsNotFound err then
        r' ← CreateClusterRoleBinding newCRB Ret;
        Ret (errOf r')
      else Ret (Some err)
  | inr currentCRB =>
      let updatedSubjects := insertSubjects (Subjects currentCRB) ∅ in
      let updatedSubjects := insertSubjects (Subjects newCRB) updatedSubjects in
      order ← RangeSubjects updatedSubjects Ret;
      let currentCRB := setSubjects (order.*2) currentCRB in
      r' ← UpdateClusterRoleBinding currentCRB Ret;
      Ret (errOf r')
  end.

End Merger.

(** ** The functions on the objects they receive *)

(** Modelled from the spec: the functions receive an untyped object and
    convert it to a binding and back with the converter of the runtime
    package, which is outside this code.  Either conversion may fail.  [U] is
    the type of the untyped content of an object. *)
Class UnstructuredConverter (U : Type) : Type := {
  FromUnstructured : U → error + ClusterRoleBinding;
  ToUnstructured : ClusterRoleBinding → error + U
}.

Section Objects.
  Context `{NameValidation} `{Stringer Subject}.
  Context {U : Type} `{UnstructuredConverter U}.

  (** [prepareClusterRoleBindingForCollection(object, namespaces)], whole:
      the returned error with the object left as it was, or the content the
      object is given. *)
Definition prepareClusterRoleBindingForCollectionObject (object : U)
    (namespaces : list string) : error + U :=
  match FromUnstructured object with
  | inl err => inl err
  | inr crb =>
      match prepareClusterRoleBindingForCollection crb namespaces with
      | inl err => inl err
      | inr crb' => ToUnstructured crb'
      end
  end.

  (** [prepareClusterRoleBindingForApply(object, namespaceMappings)],
      whole. *)
Definition prepareClusterRoleBindingForApplyObject (object : U)
    (namespaceMappings : gmap string string) : Go (error + U) :=
  match FromUnstructured object with
  | inl err => Ret (inl err)
  | inr crb =>
      r ← prepareClusterRoleBindingForApply crb namespaceMappings;
      match r with
      | inl err => Ret (inl err)
      | inr crb' => Ret (ToUnstructured crb')
      end
  end.

  (** [mergeAndUpdateClusterRoleBinding(object)], whole: an object that
      does not decode is an error before any call. *)
Definition mergeAndUpdateClusterRoleBindingObject (object : U)
    : Go (option error) :=
  match FromUnstructured object with
  | inl err => Ret (Some err)
  | inr newCRB => mergeAndUpdateClusterRoleBinding newCRB
  end.

End Objects.

(** ** Instances of the parameters *)

Module dns1123.
  Import gostrings.

  (** [a-z0-9]. *)
Definition isLowerAlnum (c : ascii) : bool :=
  let n := nat_of_ascii c in
  ((97 <=? n) && (n <=? 122) || (48 <=? n) && (n <=? 57))%nat.

  (** [-a-z0-9]. *)
Definition isLabelChar (c : ascii) : bool :=
  isLowerAlnum c || bool_decide (c = "-"%char).

Fixpoint allLabelChars (s : string) : bool :=
  match s with
  | EmptyString => true
  | String c r => isLabelChar c && allLabelChars r
  end.

Fixpoint lastIsAlnum (s : string) : bool :=
  match s with
  | EmptyString => false
  | String c EmptyString => isLowerAlnum c
  | String _ r => lastIsAlnum r
  end.

  (** The whole of [s] matches [[a-z0-9]([-a-z0-9]*[a-z0-9])?]. *)
Definition matchesLabelFmt (s : string) : bool :=
  match s with
  | EmptyString => false
  | String c _ => isLowerAlnum c && allLabelChars s && lastIsAlnum s
  end.

  (** [IsDNS1123Label(value)]: the messages for a value that is too long or
      is not a label. *)
Definition IsDNS1123Label (value : string) : list string :=
  (if (63 <? String.length value)%nat
   then ["must be no more than 63 characters"] else [])
  ++ (if matchesLabelFmt value then [] else ["a DNS-1123 label is required"]).

  (** [IsDNS1123Subdomain(value)]: labels separated by dots. *)
Definition IsDNS1123Subdomain (value : string) : list string :=
  (if (253 <? String.length value)%nat
   then ["must be no more than 253 characters"] else [])
  ++ (if forallb matchesLabelFmt (Split value "."%char) then []
      else ["a DNS-1123 subdomain is required"]).

  (** Modelled from the spec: an instance of the name validation, the
      rules Kubernetes applies to the names of namespaces (a DNS label) and
      of service accounts (a DNS subdomain) when called with
      [prefix = false], as [SplitUsername] does. *)
Definition validation : NameValidation := {|
  ValidateNamespaceName name _ := IsDNS1123Label name;
  ValidateServiceAccountName name _ := IsDNS1123Subdomain name
|}.

End dns1123.

(** Modelled from the spec: the [String()] that the protobuf generator
    writes for [Subject] in the vendored API package, a stable serialization
    of the subject: the fields in their order, each after its name and before
    a comma. *)
Definition Subject_String : Stringer Subject := λ this,
  "&Subject{Kind:" +:+ Kind this +:+ ",APIGroup:" +:+ APIGroup this
    +:+ ",Name:" +:+ Name this +:+ ",Namespace:" +:+ Namespace this +:+ ",}".

(** ** Notions the properties are stated with *)

Section Notions.
  Context `{NameValidation}.

  (** How many of the requested namespaces, counted as often as they are
      listed, the subject is in. *)
Definition matchCount (subject : Subject) (namespaces : list string) : nat :=
  length (filter (λ ns, (subjectInNamespace subject ns).1 = true) namespaces).

  (** A User subject whose name is not of the form
      [system:serviceaccount:<namespace>:<account>]. *)
Definition nonconformingUser (subject : Subject) : bool :=
  bool_decide (Kind subject = UserKind)
  && match serviceaccount.SplitUsername (Name subject) with
     | inl _ => true
     | inr _ => false
     end.

  (** The rewritten subjects that one entry of the mapping contributes. *)
Definition remappedFor (sourceNamespace destNamespace : string)
    (subjects : list Subject) : list Subject :=
  omap (λ subject,
          if (subjectInNamespace subject sourceNamespace).1 then
            match rewriteSubject subject destNamespace with
            | inr subject' => Some subject'
            | inl _ => None
            end
          else None) subjects.

End Notions.

Section MergeNotions.
  Context `{Stringer Subject}.

  (** The subjects of a list under their canonical identity strings; of
      several subjects with one identity the last of the list stands. *)
Definition subjectsByIdentity (subjects : list Subject)
    : gmap string Subject :=
  list_to_map (reverse ((λ subject, (String_ subject, subject)) <$> subjects)).

  (** The union of two subject lists keyed by canonical identity, in which
      an incoming subject wins over a current one of the same identity. *)
Definition mergedSubjects (current incoming : list Subject)
    : gmap string Subject :=
  subjectsByIdentity incoming ∪ subjectsByIdentity current.

  (** No two different subjects of the list have the same identity string. *)
Definition identityConsistent (subjects : list Subject) : Prop :=
  ∀ s1 s2, s1 ∈ subjects → s2 ∈ subjects → String_ s1 = String_ s2 → s1 = s2.

End MergeNotions.

(** ** The binding scoper *)

Section Scoper.
  Context `{NameValidation}.

  (** The scan [for _, subject := range subjects] that both scopers run:
      it returns at the first subject that is in the namespace or whose
      classification fails, and runs through otherwise. *)
Fixpoint scanSubjects (subjects : list Subject) (namespace : string)
    : option (bool * option error) :=
  match subjects with
  | [] => None
  | subject :: rest =>
      let '(collect, err) := subjectInNamespace subject namespace in
      if bool_decide (err ≠ None) || collect then Some (collect, err)
      else scanSubjects rest namespace
  end.

  (** [clusterRoleBindingToBeCollected(labelSelectors, object, namespace)];
      [decoded] is the outcome of converting the object to a binding. *)
Definition clusterRoleBindingToBeCollected
    (labelSelectors : gmap string string)
    (decoded : error + ClusterRoleBinding) (namespace : string)
    : bool * option error :=
  match decoded with
  | inl err => (false, Some err)
  | inr crb =>
      match scanSubjects (Subjects crb) namespace with
      | Some result => result
      | None => (false, None)
      end
  end.

  (** The loop [for _, crb := range crbs.Items] of the cluster role
      scoper: only the bindings that refer to the role [name] are scanned. *)
Fixpoint scanBindings (items : list ClusterRoleBinding) (name : string)
    (namespace : string) : bool * option error :=
  match items with
  | [] => (false, None)
  | crb :: rest =>
      if decide (RoleRefName (Role crb) = name) then
        match scanSubjects (Subjects crb) namespace with
        | Some result => result
        | None => scanBindings rest name namespace
        end
      else scanBindings rest name namespace
  end.

  (** [clusterRoleToBeCollected(labelSelectors, object, namespace)];
      [accessed] is the outcome of [meta.Accessor] on the object, asked first,
      and [listed] the answer of the client's [ListClusterRoleBindings], asked
      only when the metadata was obtained. *)
Definition clusterRoleToBeCollected
    (labelSelectors : gmap string string)
    (accessed : error + ObjectMeta)
    (listed : error + list ClusterRoleBinding) (namespace : string)
    : bool * option error :=
  match accessed with
  | inl err => (false, Some err)
  | inr metadata =>
      let name := MetaName metadata in
      match listed with
      | inl err => (false, Some err)
      | inr items => scanBindings items name namespace
      end
  end.

End Scoper.

Section ScopeNotions.
  Context `{NameValidation}.

  (** The namespace a subject names, if its kind and name give one. *)
Definition namespaceOf (subject : Subject) : option string :=
  if decide (Kind subject = ServiceAccountKind) then Some (Namespace subject)
  else if decide (Kind subject = UserKind) then
    match serviceaccount.SplitUsername (Name subject) with
    | inl _ => None
    | inr (userNamespace, _) => Some userNamespace
    end
  else if decide (Kind subject = GroupKind) then
    Some (gostrings.TrimPrefix (Name subject)
            serviceaccount.ServiceAccountUsernamePrefix)
  else None.

  (** The subject is in one of the namespaces. *)
Definition inSomeNamespace (namespaces : list string) (subject : Subject)
    : Prop :=
  Exists (λ ns, subjectInNamespace subject ns = (true, None)) namespaces.

#[global] Instance inSomeNamespace_dec (namespaces : list string)
    (subject : Subject) : Decision (inSomeNamespace namespaces subject).
Proof. unfold inSomeNamespace. apply _. Defined.

  (** The rewrite of a subject whose namespace the mapping has. *)
Definition remapped (m : gmap string string) (subject : Subject)
    : option Subject :=
  ns ← namespaceOf subject;
  dst ← m !! ns;
  match rewriteSubject subject dst with
  | inr subject' => Some subject'
  | inl _ => None
  end.

End ScopeNotions.

(** ** Bindings and mappings for the examples *)

Module Example.

Definition role : RoleRef :=
  mkRoleRef "rbac.authorization.k8s.io" "ClusterRole" "view".
Definition meta : ObjectMeta := mkObjectMeta "view-binding" "1" [].

  (** Service accounts of ns-a and of ns-b. *)
Definition sa1 : Subject := mkSubject "ServiceAccount" "" "sa1" "ns-a".
Definition sa2 : Subject := mkSubject "ServiceAccount" "" "sa2" "ns-b".

  (** A service account of ns-b as a user, and the group of the service
      accounts of ns-a. *)
Definition user1 : Subject :=
  mkSubject "User" "rbac.authorization.k8s.io"
    "system:serviceaccount:ns-b:user1" "".
Definition group1 : Subject :=
  mkSubject "Group" "rbac.authorization.k8s.io"
    "system:serviceaccounts:ns-a" "".

  (** A user that is not a service account. *)
Definition bob : Subject :=
  mkSubject "User" "rbac.authorization.k8s.io" "bob" "".

  (** Two different subjects that the generated [String()] writes as the
      same string: the text after [Name:] is split between the name and the
      namespace in two ways. *)
Definition aliasA : Subject :=
  mkSubject "User" "rbac.authorization.k8s.io" "a,Namespace:b" "".
Definition aliasB : Subject :=
  mkSubject "User" "rbac.authorization.k8s.io" "a" "b,Namespace:".

  (** A service account of ns-a as a user. *)
Definition userA : Subject :=
  mkSubject "User" "rbac.authorization.k8s.io"
    "system:serviceaccount:ns-a:default" "".

  (** An object that holds a binding, or holds none and does not decode;
      every binding encodes. *)
Definition converter : UnstructuredConverter (option ClusterRoleBinding) := {|
  FromUnstructured object :=
    match object with
    | Some crb => inr crb
    | None => inl (StatusError "BadRequest")
    end;
  ToUnstructured crb := inr (Some crb)
|}.

  (** A binding of another name, and a binding of [sa2] alone. *)
Definition otherBinding : ClusterRoleBinding :=
  mkClusterRoleBinding (mkObjectMeta "other-binding" "7" []) [sa2] role.
Definition sa2Binding : ClusterRoleBinding :=
  mkClusterRoleBinding meta [sa2] role.

  (** What the merge of [sa2] leaves of the two aliases, and a cluster
      of two bindings. *)
Definition aliasDropped : ClusterRoleBinding :=
  mkClusterRoleBinding meta [sa2; aliasB] role.
Definition twoCluster : gmap string ClusterRoleBinding :=
  <["other-binding" := otherBinding]>
    {["view-binding" := mkClusterRoleBinding meta [sa1; aliasA] role]}.

  (** The bindings of the merger's examples. *)
Definition destBinding : ClusterRoleBinding :=
  mkClusterRoleBinding meta [sa1; aliasA] role.
Definition incomingBinding : ClusterRoleBinding :=
  mkClusterRoleBinding meta [aliasB; sa2] role.
Definition writtenBinding : ClusterRoleBinding :=
  mkClusterRoleBinding meta [sa1; sa2; aliasB] role.
Definition twoBinding : ClusterRoleBinding :=
  mkClusterRoleBinding meta [sa1; sa2] role.
Definition saBinding : ClusterRoleBinding :=
  mkClusterRoleBinding meta [sa1] role.
Definition aliasBinding : ClusterRoleBinding :=
  mkClusterRoleBinding meta [aliasA; aliasB] role.
Definition aliasMerged : ClusterRoleBinding :=
  mkClusterRoleBinding meta [aliasB] role.

  (** ns-a -> ns-c, ns-b -> ns-d. *)
Definition twoMappings : gmap string string :=
  <["ns-a" := "ns-c"]> {["ns-b" := "ns-d"]}.

End Example.

(** * Properties *)

(** ** Strings *)

Section StringFacts.
  Import gostrings.

Lemma stripPrefix_app (p r : string) : stripPrefix p (p +:+ r) = Some r.
Proof.
  induction p as [|a p IH]; simpl; [done|].
  by rewrite decide_True.
Qed.

Lemma stripPrefix_Some (p s r : string) :
  stripPrefix p s = Some r → s = p +:+ r.
Proof.
  revert s; induction p as [|a p IH]; intros s; simpl.
  - by intros [= ->].
  - destruct s as [|b s]; [done|].
    case_decide; [|done]. intros Hs. subst b.
    change (String a s = String a (p +:+ r)). f_equal. by apply IH.
Qed.

Lemma HasPrefix_app (p r : string) : HasPrefix (p +:+ r) p = true.
Proof. unfold HasPrefix. by rewrite stripPrefix_app. Qed.

Lemma TrimPrefix_app (p r : string) : TrimPrefix (p +:+ r) p = r.
Proof. unfold TrimPrefix. by rewrite stripPrefix_app. Qed.

Lemma length_append (a b : string) :
  String.length (a +:+ b) = (String.length a + String.length b)%nat.
Proof. induction a as [|c a IH]; simpl; [done|]. by rewrite IH. Qed.

Lemma Split_without_sep (s : string) (sep : ascii) :
  ContainsByte s sep = false → Split s sep = [s].
Proof.
  induction s as [|c s IH]; simpl; [done|].
  case_decide; [done|]. intros Hs. by rewrite (IH Hs).
Qed.

Lemma Split_append (a b : string) (sep : ascii) :
  ContainsByte a sep = false →
  Split (a +:+ String sep b) sep = a :: Split b sep.
Proof.
  induction a as [|c a IH]; simpl.
  - intros _. by rewrite decide_True.
  - case_decide; [done|]. intros Ha. by rewrite (IH Ha).
Qed.

End StringFacts.

(** ** The classifier *)

Section ClassifierFacts.
  Context `{NameValidation}.
  Import gostrings serviceaccount.

  (** The classifier never returns an error. *)
Lemma subjectInNamespace_nil (subject : Subject) (namespace : string) :
  (subjectInNamespace subject namespace).2 = None.
Proof.
  unfold subjectInNamespace.
  repeat case_decide; try done.
  destruct (SplitUsername _) as [|[??]]; [done|]. by case_decide.
Qed.

  (** A well-formed user name splits into its namespace and account. *)
Lemma SplitUsername_MakeUsername (N acct : string) :
  ContainsByte N ServiceAccountUsernameSeparator = false →
  ContainsByte acct ServiceAccountUsernameSeparator = false →
  ValidateNamespaceName N false = [] →
  ValidateServiceAccountName acct false = [] →
  SplitUsername (MakeUsername N acct) = inr (N, acct).
Proof.
  intros HN Hacct HvN Hvacct. unfold SplitUsername, MakeUsername.
  rewrite HasPrefix_app, TrimPrefix_app. simpl negb. cbv iota.
  rewrite (Split_append _ _ _ HN), (Split_without_sep _ _ Hacct).
  by rewrite HvN, Hvacct.
Qed.

(** C8: a User subject named [system:serviceaccount:N:acct], with [N] and
    [acct] free of the separator and accepted as a namespace and an account
    name, is in namespace [N] and in no other namespace; a User subject whose
    name does not split is in no namespace; the classifier reports no error
    in any of these cases. *)
Theorem user_subject_in_its_namespace_only (subject : Subject)
    (N acct : string) :
  Kind subject = UserKind →
  Name subject = MakeUsername N acct →
  ContainsByte N ServiceAccountUsernameSeparator = false →
  ContainsByte acct ServiceAccountUsernameSeparator = false →
  ValidateNamespaceName N false = [] →
  ValidateServiceAccountName acct false = [] →
  subjectInNamespace subject N = (true, None)
  ∧ (∀ other, other ≠ N → subjectInNamespace subject other = (false, None))
  ∧ (∀ user namespace err,
       Kind user = UserKind →
       SplitUsername (Name user) = inl err →
       subjectInNamespace user namespace = (false, None)).
Proof.
  intros Hkind Hname HN Hacct HvN Hvacct.
  pose proof (SplitUsername_MakeUsername N acct HN Hacct HvN Hvacct) as Hsplit.
  rewrite <- Hname in Hsplit.
  split; [|split].
  - unfold subjectInNamespace. rewrite Hkind, Hsplit.
    rewrite decide_False by done. rewrite decide_True by done.
    by rewrite decide_True.
  - intros other Hother. unfold subjectInNamespace. rewrite Hkind, Hsplit.
    rewrite decide_False by done. rewrite decide_True by done.
    by rewrite decide_False.
  - intros user namespace err Hu Herr. unfold subjectInNamespace.
    rewrite Hu, Herr.
    rewrite decide_False by done. by rewrite decide_True.
Qed.

  (** A conventional group name does not start with the user name
      prefix, so trimming that prefix leaves it whole. *)
Lemma TrimPrefix_group_name (N : string) :
  TrimPrefix (MakeNamespaceGroupName N) ServiceAccountUsernamePrefix
  = MakeNamespaceGroupName N.
Proof. reflexivity. Qed.

Lemma MakeNamespaceGroupName_neq (N : string) : MakeNamespaceGroupName N ≠ N.
Proof.
  intros Heq. apply (f_equal String.length) in Heq.
  unfold MakeNamespaceGroupName in Heq. rewrite length_append in Heq.
  simpl in Heq. lia.
Qed.

  (** A subject whose kind is Group and whose name is the conventional
      group name of [N] is not in [N]. *)
Lemma conventional_group_unmatched (subject : Subject) (N : string) :
  Kind subject = GroupKind →
  Name subject = MakeNamespaceGroupName N →
  subjectInNamespace subject N = (false, None).
Proof.
  intros Hkind Hname. unfold subjectInNamespace. rewrite Hkind, Hname.
  rewrite decide_False by done. rewrite decide_False by done.
  rewrite decide_True by done. rewrite TrimPrefix_group_name.
  rewrite decide_False; [done|]. apply MakeNamespaceGroupName_neq.
Qed.

(** C1: a Group subject named by the group convention for [N],
    [system:serviceaccounts:N], is not found to be in [N]: the classifier
    trims the user name prefix [system:serviceaccount:], which such a name
    does not start with, so the name stays whole and differs from [N];
    trimming the group prefix would have left [N]. *)
Theorem group_subject_not_in_its_namespace (subject : Subject) (N : string) :
  Kind subject = GroupKind →
  Name subject = MakeNamespaceGroupName N →
  subjectInNamespace subject N = (false, None)
  ∧ TrimPrefix (Name subject) ServiceAccountUsernamePrefix = Name subject
  ∧ TrimPrefix (Name subject) ServiceAccountGroupPrefix = N.
Proof.
  intros Hkind Hname. split; [by apply conventional_group_unmatched|].
  rewrite Hname. split; [apply TrimPrefix_group_name|].
  apply TrimPrefix_app.
Qed.

  (** What the classifier does accept as the group of [N]: the user name
      prefix followed by [N]. *)
Lemma group_subject_username_prefix (subject : Subject) (N : string) :
  Kind subject = GroupKind →
  Name subject = ServiceAccountUsernamePrefix +:+ N →
  subjectInNamespace subject N = (true, None).
Proof.
  intros Hkind Hname. unfold subjectInNamespace. rewrite Hkind, Hname.
  rewrite decide_False by done. rewrite decide_False by done.
  rewrite decide_True by done.
  rewrite TrimPrefix_app. by rewrite decide_True.
Qed.

End ClassifierFacts.

(** The user [system:serviceaccount:ns-a:default] is in ns-a and not in
    ns-b; the user [bob] is not in ns-a. *)
Lemma user_subject_in_its_namespace_only_witness :
  @subjectInNamespace dns1123.validation Example.userA "ns-a" = (true, None)
  ∧ @subjectInNamespace dns1123.validation Example.userA "ns-b" = (false, None)
  ∧ @subjectInNamespace dns1123.validation Example.bob "ns-a" = (false, None).
Proof.
  destruct (@user_subject_in_its_namespace_only dns1123.validation
              Example.userA "ns-a" "default") as (Hin & Hout & Hbad);
    try reflexivity.
  split; [exact Hin|]. split; [apply Hout; discriminate|].
  by apply (Hbad Example.bob "ns-a" invalidUsernameErr).
Defined.

(** The group [system:serviceaccounts:ns-a] is not found to be in ns-a. *)
Lemma group_subject_not_in_its_namespace_witness :
  @subjectInNamespace dns1123.validation Example.group1 "ns-a" = (false, None).
Proof.
  apply (@group_subject_not_in_its_namespace dns1123.validation
           Example.group1 "ns-a"); reflexivity.
Defined.

(** ** The extractor *)

Section ExtractorFacts.
  Context `{NameValidation}.
  Context {U : Type} `{UnstructuredConverter U}.

Lemma matchCount_cons (subject : Subject) (ns : string)
    (namespaces : list string) :
  matchCount subject (ns :: namespaces)
  = ((if (subjectInNamespace subject ns).1 then 1 else 0)
     + matchCount subject namespaces)%nat.
Proof.
  unfold matchCount. rewrite filter_cons.
  destruct (subjectInNamespace subject ns).1; case_decide; done.
Qed.

Lemma collectInNamespaces_replicate (subject : Subject)
    (namespaces : list string) (acc : list Subject) :
  collectInNamespaces subject namespaces acc
  = inr (acc ++ replicate (matchCount subject namespaces) subject).
Proof.
  revert acc. induction namespaces as [|ns rest IH]; intros acc.
  - simpl. by rewrite app_nil_r.
  - rewrite matchCount_cons. simpl.
    pose proof (subjectInNamespace_nil subject ns) as Hnil.
    destruct (subjectInNamespace subject ns) as [collect err].
    simpl in Hnil. subst err. rewrite IH. simpl.
    destruct collect; simpl; [|done]. by rewrite <- app_assoc.
Qed.

Lemma collectSubjects_bind (subjects : list Subject)
    (namespaces : list string) (acc : list Subject) :
  collectSubjects subjects namespaces acc
  = inr (acc ++ (subjects ≫=
                   λ subject, replicate (matchCount subject namespaces) subject)).
Proof.
  revert acc. induction subjects as [|subject rest IH]; intros acc.
  - simpl. by rewrite app_nil_r.
  - simpl. rewrite collectInNamespaces_replicate, IH.
    by rewrite <- app_assoc.
Qed.

Lemma count_occ_replicate (x y : Subject) (k : nat) :
  count_occ Subject_eq_dec (replicate k y) x = if decide (y = x) then k else 0%nat.
Proof.
  induction k as [|k IH]; simpl.
  - by case_decide.
  - rewrite IH. destruct (Subject_eq_dec y x); case_decide; done.
Qed.

(** C6: the object decoded and its result encoded, the extractor puts
    every subject of the binding into the output subject sequence once for
    each listed namespace it is in, in place and without de-duplication: the
    subjects of the result are the binding's subjects in order, each repeated
    as often as it is in a listed namespace, so a subject that the binding
    lists [n] times and that is in [k] of the listed namespaces occurs [n * k]
    times, [k] times when the binding lists it once.  The metadata and the
    role reference are kept.  An object that does not decode is an error. *)
Theorem extractor_once_per_matching_namespace (object : U)
    (namespaces : list string) :
  (∀ err, FromUnstructured object = inl err →
     prepareClusterRoleBindingForCollectionObject object namespaces = inl err)
  ∧ (∀ crb, FromUnstructured object = inr crb →
       ∃ crb',
         prepareClusterRoleBindingForCollection crb namespaces = inr crb'
         ∧ prepareClusterRoleBindingForCollectionObject object namespaces
           = ToUnstructured crb'
         ∧ Subjects crb'
           = (Subjects crb ≫=
                λ subject, replicate (matchCount subject namespaces) subject)
         ∧ (∀ subject,
              count_occ Subject_eq_dec (Subjects crb') subject
              = (count_occ Subject_eq_dec (Subjects crb) subject
                 * matchCount subject namespaces)%nat)
         ∧ Meta crb' = Meta crb ∧ Role crb' = Role crb).
Proof.
  unfold prepareClusterRoleBindingForCollectionObject.
  split; [by intros err ->|]. intros crb ->.
  unfold prepareClusterRoleBindingForCollection.
  rewrite collectSubjects_bind. eexists.
  split; [reflexivity|]. split; [reflexivity|]. split; [reflexivity|].
  split; [|done]. intros subject. simpl.
  generalize (Subjects crb). intros subjects.
  induction subjects as [|s rest IH]; [done|].
  change ((s :: rest) ≫= ?f) with (f s ++ (rest ≫= f)).
  rewrite count_occ_app, IH, count_occ_replicate. simpl.
  destruct (Subject_eq_dec s subject) as [->|Hne].
  + rewrite decide_True by done. lia.
  + rewrite decide_False by done. lia.
Qed.

End ExtractorFacts.

(** A namespace listed twice yields its subjects twice. *)
Example extractor_duplicates :
  @prepareClusterRoleBindingForCollection dns1123.validation
    (mkClusterRoleBinding Example.meta [Example.sa1] Example.role)
    ["ns-a"; "ns-a"]
  = inr (mkClusterRoleBinding Example.meta [Example.sa1; Example.sa1]
           Example.role).
Proof. reflexivity. Qed.

(** The extraction of a service account of ns-a, a user of ns-b and the
    group of ns-a, with ns-a requested: the user is left out, and so is the
    group, which the classifier does not recognise. *)
Example extractor_example :
  @prepareClusterRoleBindingForCollection dns1123.validation
    (mkClusterRoleBinding Example.meta
       [Example.sa1; Example.user1; Example.group1] Example.role)
    ["ns-a"]
  = inr (mkClusterRoleBinding Example.meta [Example.sa1] Example.role).
Proof. reflexivity. Qed.

(** ** Runs of programs *)

Section RunFacts.
  Context {A : Type}.
  Implicit Types (σ : gmap string ClusterRoleBinding) (a : A).

Lemma runs_ret_inv σ a t σ' a' :
  runs σ (Ret a) t σ' a' → t = [] ∧ σ' = σ ∧ a' = a.
Proof. by inversion 1. Qed.

Lemma runs_range_mappings_inv σ m (k : list (string * string) → Go A) t σ' a :
  runs σ (RangeMappings m k) t σ' a →
  ∃ order, range_order m order ∧ runs σ (k order) t σ' a.
Proof. inversion 1; subst. eauto. Qed.

Lemma runs_range_subjects_inv σ m (k : list (string * Subject) → Go A) t σ' a :
  runs σ (RangeSubjects m k) t σ' a →
  ∃ order, range_order m order ∧ runs σ (k order) t σ' a.
Proof. inversion 1; subst. eauto. Qed.

Lemma runs_get_inv σ name (k : error + ClusterRoleBinding → Go A) t σ' a :
  runs σ (GetClusterRoleBinding name k) t σ' a →
  ∃ resp t',
    t = CallGet name resp :: t'
    ∧ runs σ (k resp) t' σ' a
    ∧ match resp with
      | inr crb => σ !! name = Some crb
      | inl err => IsNotFound err = true → σ !! name = None
      end.
Proof.
  inversion 1; subst; eexists _, _; (split; [reflexivity|split; [eassumption|]]);
    simpl; [done|done|congruence].
Qed.

Lemma runs_create_inv σ crb (k : error + ClusterRoleBinding → Go A) t σ' a :
  runs σ (CreateClusterRoleBinding crb k) t σ' a →
  ∃ resp t',
    t = CallCreate crb resp :: t'
    ∧ match resp with
      | inr crb' =>
          crb' = crb ∧ σ !! MetaName (Meta crb) = None
          ∧ runs (<[MetaName (Meta crb) := crb]> σ) (k resp) t' σ' a
      | inl _ => runs σ (k resp) t' σ' a
      end.
Proof. inversion 1; subst; eexists _, _; (split; [reflexivity|]); done. Qed.

Lemma runs_update_inv σ crb (k : error + ClusterRoleBinding → Go A) t σ' a :
  runs σ (UpdateClusterRoleBinding crb k) t σ' a →
  ∃ resp t',
    t = CallUpdate crb resp :: t'
    ∧ match resp with
      | inr crb' =>
          crb' = crb ∧ is_Some (σ !! MetaName (Meta crb))
          ∧ runs (<[MetaName (Meta crb) := crb]> σ) (k resp) t' σ' a
      | inl _ => runs σ (k resp) t' σ' a
      end.
Proof. inversion 1; subst; eexists _, _; (split; [reflexivity|]); done. Qed.

End RunFacts.

(** ** The remapper *)

Section RemapperFacts.
  Context `{NameValidation}.
  Import serviceaccount.

  (** A subject the classifier matches is rewritten without error: the
      user name that did split splits again. *)
Lemma rewriteSubject_matched (subject : Subject) (sourceNamespace dest : string) :
  (subjectInNamespace subject sourceNamespace).1 = true →
  ∃ subject', rewriteSubject subject dest = inr subject'.
Proof.
  unfold subjectInNamespace, rewriteSubject.
  destruct (decide (Kind subject = UserKind)) as [Hu|Hu].
  - rewrite Hu. rewrite decide_False by done.
    destruct (SplitUsername (Name subject)) as [e|[userNamespace username]];
      [done|eauto].
  - intros _. repeat case_decide; eauto.
Qed.

  (** The rewrite of a User subject returns the error of a user name
      that does not split; the remapper reaches the rewrite only with names
      the classifier has split before. *)
Lemma rewriteSubject_nonconforming (subject : Subject) (dest : string) err :
  Kind subject = UserKind →
  SplitUsername (Name subject) = inl err →
  rewriteSubject subject dest = inl err
  ∧ ∀ sourceNamespace,
      subjectInNamespace subject sourceNamespace = (false, None).
Proof.
  intros Hkind Hsplit. split; [|intros sourceNamespace].
  - unfold rewriteSubject. rewrite Hkind, Hsplit. by rewrite decide_True.
  - unfold subjectInNamespace. rewrite Hkind, Hsplit.
    rewrite decide_False by done. by rewrite decide_True.
Qed.

  (** The group name the remapper writes for a destination namespace is
      one the classifier does not find to be in that namespace. *)
Lemma rewritten_group_unmatched (subject : Subject) (dest : string) :
  Kind subject = GroupKind →
  ∃ subject',
    rewriteSubject subject dest = inr subject'
    ∧ Name subject' = MakeNamespaceGroupName dest
    ∧ subjectInNamespace subject' dest = (false, None).
Proof.
  intros Hkind. exists (setName (MakeNamespaceGroupName dest) subject).
  split; [|split; [done|]].
  - unfold rewriteSubject. rewrite Hkind.
    rewrite decide_False by done. by rewrite decide_True.
  - by apply conventional_group_unmatched.
Qed.

Lemma applySubjects_remappedFor (subjects : list Subject)
    (sourceNamespace dest : string) (acc : list Subject) :
  applySubjects subjects sourceNamespace dest acc
  = inr (acc ++ remappedFor sourceNamespace dest subjects).
Proof.
  revert acc. induction subjects as [|subject rest IH]; intros acc.
  - simpl. by rewrite app_nil_r.
  - unfold remappedFor. simpl. fold (remappedFor sourceNamespace dest rest).
    pose proof (subjectInNamespace_nil subject sourceNamespace) as Hnil.
    pose proof (rewriteSubject_matched subject sourceNamespace dest) as Hrw.
    destruct (subjectInNamespace subject sourceNamespace) as [collect err].
    simpl in *. subst err. destruct collect; simpl.
    + destruct Hrw as [subject' ->]; [done|]. rewrite IH.
      by rewrite <- app_assoc.
    + apply IH.
Qed.

Lemma applyMappings_bind (order : list (string * string))
    (subjects acc : list Subject) :
  applyMappings order subjects acc
  = inr (acc ++ (order ≫= λ entry, remappedFor entry.1 entry.2 subjects)).
Proof.
  revert acc. induction order as [|[src dst] rest IH]; intros acc.
  - simpl. by rewrite app_nil_r.
  - simpl. rewrite applySubjects_remappedFor, IH. by rewrite <- app_assoc.
Qed.

Lemma elem_of_remappedFor (x : Subject) (src dst : string)
    (subjects : list Subject) :
  x ∈ remappedFor src dst subjects
  ↔ ∃ subject, subject ∈ subjects
      ∧ subjectInNamespace subject src = (true, None)
      ∧ rewriteSubject subject dst = inr x.
Proof.
  unfold remappedFor. rewrite list_elem_of_omap. split.
  - intros (subject & Hin & Hx). exists subject. split; [done|].
    pose proof (subjectInNamespace_nil subject src) as Hnil.
    destruct (subjectInNamespace subject src) as [collect err].
    simpl in *. subst err. destruct collect; [|done].
    destruct (rewriteSubject subject dst); naive_solver.
  - intros (subject & Hin & Hm & Hx). exists subject. split; [done|].
    by rewrite Hm, Hx.
Qed.

  (** A nonconforming user contributes nothing, for any mapping entry. *)
Lemma remappedFor_filter_conforming (src dst : string) (subjects : list Subject) :
  remappedFor src dst (filter (λ s, nonconformingUser s = false) subjects)
  = remappedFor src dst subjects.
Proof.
  induction subjects as [|subject rest IH]; [done|].
  rewrite filter_cons. unfold remappedFor in *.
  case_decide as Hc; csimpl; rewrite IH; [done|].
  apply not_false_is_true in Hc. unfold nonconformingUser in Hc.
  apply andb_true_iff in Hc as [Hk Hs]. apply bool_decide_eq_true in Hk.
  unfold subjectInNamespace. rewrite Hk.
  rewrite decide_False by done. rewrite decide_True by done.
  by destruct (SplitUsername (Name subject)).
Qed.

  (** Every run of the remapper makes no call, changes nothing and
      succeeds with the contributions of the mapping's entries in the order
      the runtime visited them. *)
Lemma prepareClusterRoleBindingForApply_runs_inv
    (crb : ClusterRoleBinding) (m : gmap string string) σ t σ' r :
  runs σ (prepareClusterRoleBindingForApply crb m) t σ' r →
  t = [] ∧ σ' = σ
  ∧ ∃ order, range_order m order
      ∧ r = inr (setSubjects
                   (order ≫= λ entry, remappedFor entry.1 entry.2 (Subjects crb))
                   crb).
Proof.
  intros Hrun. apply runs_range_mappings_inv in Hrun as (order & Horder & Hrun).
  simpl in Hrun. rewrite applyMappings_bind in Hrun.
  apply runs_ret_inv in Hrun as (-> & -> & ->). eauto.
Qed.

  (** The remapper does run, for every visiting order of the mapping. *)
Lemma prepareClusterRoleBindingForApply_runs
    (crb : ClusterRoleBinding) (m : gmap string string) σ order :
  range_order m order →
  runs σ (prepareClusterRoleBindingForApply crb m) [] σ
    (inr (setSubjects
            (order ≫= λ entry, remappedFor entry.1 entry.2 (Subjects crb)) crb)).
Proof.
  intros Horder. eapply runs_range_mappings; [exact Horder|].
  simpl. rewrite applyMappings_bind. constructor.
Qed.

End RemapperFacts.

Section RemapperObject.
  Context `{NameValidation}.
  Context {U : Type} `{UnstructuredConverter U}.


  (** Every run of the whole remapper makes no call and changes nothing;
      an object that does not decode is that error; otherwise the result is
      what the loops give for some visiting order of the mapping, encoded when
      the loops succeed. *)
Lemma prepareClusterRoleBindingForApplyObject_runs_inv (object : U)
    (m : gmap string string) σ (t : list Call) σ' r :
  runs σ (prepareClusterRoleBindingForApplyObject object m) t σ' r →
  t = [] ∧ σ' = σ
  ∧ match FromUnstructured object with
    | inl err => r = inl err
    | inr crb =>
        ∃ order, range_order m order
          ∧ r = match applyMappings order (Subjects crb) [] with
                | inl e => inl e
                | inr out => ToUnstructured (setSubjects out crb)
                end
    end.
Proof.
  unfold prepareClusterRoleBindingForApplyObject.
  destruct (FromUnstructured object) as [err|crb].
  - intros Hrun. by apply runs_ret_inv in Hrun as (-> & -> & ->).
  - intros Hrun.
    apply runs_range_mappings_inv in Hrun as (order & Horder & Hrun).
    simpl in Hrun.
    destruct (applyMappings order (Subjects crb) []) as [e|out] eqn:Hloops;
      simpl in Hrun; apply runs_ret_inv in Hrun as (-> & -> & ->);
      (split; [done|]; split; [done|]); exists order; by rewrite Hloops.
Qed.

  (** The whole remapper does run on an object that decodes, for every
      visiting order of the mapping. *)
Lemma prepareClusterRoleBindingForApplyObject_runs (object : U)
    (crb : ClusterRoleBinding) (m : gmap string string) σ order :
  FromUnstructured object = inr crb →
  range_order m order →
  runs σ (prepareClusterRoleBindingForApplyObject object m) [] σ
    (ToUnstructured
       (setSubjects
          (order ≫= λ entry, remappedFor entry.1 entry.2 (Subjects crb)) crb)).
Proof.
  intros Hdecode Horder. unfold prepareClusterRoleBindingForApplyObject.
  rewrite Hdecode. eapply runs_range_mappings; [exact Horder|].
  simpl. rewrite applyMappings_bind. simpl. constructor.
Qed.

End RemapperObject.

Section RemapperClaims.
  Context `{NameValidation}.
  Context {U : Type} `{UnstructuredConverter U}.
  Import serviceaccount.

  (** Orders of a mapping with at most one entry are equal. *)
Lemma range_order_small {V : Type} (m : gmap string V)
    (order1 order2 : list (string * V)) :
  (size m ≤ 1)%nat → range_order m order1 → range_order m order2 →
  order1 = order2.
Proof.
  unfold range_order. intros Hsize H1 H2.
  rewrite <- length_map_to_list in Hsize.
  destruct (map_to_list m) as [|x [|y l]]; simpl in Hsize; [| |lia].
  - apply Permutation_nil_r in H1, H2. congruence.
  - apply Permutation_singleton_r in H1, H2. congruence.
Qed.

(** C7: an object that does not decode is that error.  For an object
    that decodes to a binding, every run of the remapper gives the encoding of
    a binding with the same metadata and role reference whose subjects are
    exactly the rewritten subjects that some entry of the mapping matched, so
    a subject no entry matches is not in the output; a ServiceAccount is
    rewritten to a subject whose namespace is the destination and whose name,
    kind and API group are its own; the binding whose only subject is a
    ServiceAccount of ns-a, remapped under ns-a -> ns-c, has exactly one
    subject, with namespace ns-c and otherwise as the original. *)
Theorem remap_emits_rewritten_matches (object : U)
    (m : gmap string string) σ t σ' r :
  runs σ (prepareClusterRoleBindingForApplyObject object m) t σ' r →
  (∀ err, FromUnstructured object = inl err → r = inl err)
  ∧ (∀ crb, FromUnstructured object = inr crb →
       ∃ crb',
         r = ToUnstructured crb'
         ∧ Meta crb' = Meta crb ∧ Role crb' = Role crb
         ∧ (∀ x, x ∈ Subjects crb' ↔
              ∃ src dst subject,
                m !! src = Some dst ∧ subject ∈ Subjects crb
                ∧ subjectInNamespace subject src = (true, None)
                ∧ rewriteSubject subject dst = inr x)
         ∧ (∀ subject dst,
              Kind subject = ServiceAccountKind →
              ∃ subject',
                rewriteSubject subject dst = inr subject'
                ∧ Namespace subject' = dst ∧ Name subject' = Name subject
                ∧ Kind subject' = Kind subject
                ∧ APIGroup subject' = APIGroup subject)
         ∧ (∀ sa,
              Subjects crb = [sa] → Kind sa = ServiceAccountKind →
              Namespace sa = "ns-a" → m = {["ns-a" := "ns-c"]} →
              ∃ sa',
                Subjects crb' = [sa']
                ∧ Namespace sa' = "ns-c" ∧ Name sa' = Name sa
                ∧ Kind sa' = Kind sa ∧ APIGroup sa' = APIGroup sa)).
Proof.
  intros Hrun.
  apply prepareClusterRoleBindingForApplyObject_runs_inv in Hrun
    as (_ & _ & Hr).
  split.
  { intros err Hdecode. by rewrite Hdecode in Hr. }
  intros crb Hdecode. rewrite Hdecode in Hr.
  destruct Hr as (order & Horder & ->). rewrite applyMappings_bind.
  eexists. split; [reflexivity|]. split; [done|]. split; [done|].
  simpl. split; [|split].
  - intros x. rewrite list_elem_of_bind. split.
    + intros ([src dst] & Hx & Hentry). simpl in Hx.
      apply elem_of_remappedFor in Hx as (subject & ? & ? & ?).
      exists src, dst, subject. split; [|done].
      apply elem_of_map_to_list. by rewrite <- Horder.
    + intros (src & dst & subject & Hm & ? & ? & ?).
      exists (src, dst). split.
      * apply elem_of_remappedFor. eauto.
      * rewrite Horder. by apply elem_of_map_to_list.
  - intros subject dst Hk. exists (setNamespace dst subject).
    split; [|done]. unfold rewriteSubject. rewrite Hk.
    rewrite decide_False by done. rewrite decide_False by done.
    by rewrite decide_True.
  - intros sa Hsubjects Hk Hns ->. unfold range_order in Horder.
    rewrite map_to_list_singleton in Horder.
    apply Permutation_singleton_r in Horder as ->.
    exists (setNamespace "ns-c" sa). split; [|done].
    rewrite Hsubjects. unfold mbind, remappedFor. simpl.
    unfold subjectInNamespace, rewriteSubject. rewrite Hk, Hns.
    rewrite decide_True by done. by rewrite decide_True.
Qed.


  (** In the function as it is composed, the classifier has split the
      name before the rewrite splits it, so such a subject is left out before
      the rewrite: every run on a decoded binding is also a run on the binding
      without the User subjects whose names do not conform. *)
Lemma remap_skips_nonconforming_users (crb : ClusterRoleBinding)
    (m : gmap string string) σ t σ' r :
  runs σ (prepareClusterRoleBindingForApply crb m) t σ' r →
  (∃ crb', r = inr crb')
  ∧ runs σ
      (prepareClusterRoleBindingForApply
         (setSubjects
            (filter (λ s, nonconformingUser s = false) (Subjects crb)) crb) m)
      t σ' r.
Proof.
  intros Hrun.
  apply prepareClusterRoleBindingForApply_runs_inv in Hrun
    as (-> & -> & order & Horder & ->).
  split; [eauto|].
  pose proof (prepareClusterRoleBindingForApply_runs
    (setSubjects (filter (λ s, nonconformingUser s = false) (Subjects crb)) crb)
    m σ order Horder) as Hrun.
  simpl in Hrun.
  erewrite list_bind_ext in Hrun;
    [exact Hrun| |reflexivity].
  intros entry. apply remappedFor_filter_conforming.
Qed.

(** C9, as the code has it: two runs of the remapper on the same binding
    and mapping both succeed with the same subjects the same number of
    times, in orders that may differ; with at most one mapping entry the
    results are equal. *)
Theorem remap_outputs_agree_up_to_order (crb : ClusterRoleBinding)
    (m : gmap string string) σ1 t1 σ1' r1 σ2 t2 σ2' r2 :
  runs σ1 (prepareClusterRoleBindingForApply crb m) t1 σ1' r1 →
  runs σ2 (prepareClusterRoleBindingForApply crb m) t2 σ2' r2 →
  (∃ out1 out2,
     r1 = inr (setSubjects out1 crb) ∧ r2 = inr (setSubjects out2 crb)
     ∧ out1 ≡ₚ out2)
  ∧ ((size m ≤ 1)%nat → r1 = r2).
Proof.
  intros Hrun1 Hrun2.
  apply prepareClusterRoleBindingForApply_runs_inv in Hrun1
    as (_ & _ & order1 & Horder1 & ->).
  apply prepareClusterRoleBindingForApply_runs_inv in Hrun2
    as (_ & _ & order2 & Horder2 & ->).
  split.
  - eexists _, _. split; [reflexivity|]. split; [reflexivity|].
    unfold range_order in *. by rewrite Horder1, Horder2.
  - intros Hsize.
    by rewrite (range_order_small m order1 order2 Hsize Horder1 Horder2).
Qed.

End RemapperClaims.

(** *** The remapper at concrete bindings *)

Section RemapperExamples.
  Import Example.

Lemma twoMappings_order_ab :
  range_order twoMappings [("ns-a", "ns-c"); ("ns-b", "ns-d")].
Proof.
  unfold range_order, twoMappings.
  rewrite map_to_list_insert by done. by rewrite map_to_list_singleton.
Qed.

Lemma twoMappings_order_ba :
  range_order twoMappings [("ns-b", "ns-d"); ("ns-a", "ns-c")].
Proof.
  unfold range_order. rewrite <- twoMappings_order_ab. apply Permutation_swap.
Qed.

Lemma singleMapping_order :
  range_order ({["ns-a" := "ns-c"]} : gmap string string) [("ns-a", "ns-c")].
Proof. unfold range_order. by rewrite map_to_list_singleton. Qed.

(** The object that holds the binding of the one service account [sa1] of
    ns-a, remapped under ns-a -> ns-c. *)
Lemma remap_emits_rewritten_matches_witness :
  ∃ sa',
    sa' = mkSubject "ServiceAccount" "" "sa1" "ns-c"
    ∧ Namespace sa' = "ns-c" ∧ Name sa' = Name sa1
    ∧ Kind sa' = Kind sa1 ∧ APIGroup sa' = APIGroup sa1.
Proof.
  destruct (@remap_emits_rewritten_matches dns1123.validation _ converter
              (Some saBinding) {["ns-a" := "ns-c"]} ∅ [] ∅ _
              (@prepareClusterRoleBindingForApplyObject_runs
                 dns1123.validation _ converter (Some saBinding) saBinding
                 _ ∅ _ eq_refl singleMapping_order))
    as [_ Hdecoded].
  destruct (Hdecoded saBinding eq_refl)
    as (crb' & Hr & _ & _ & _ & _ & Hexample).
  destruct (Hexample sa1 eq_refl eq_refl eq_refl eq_refl)
    as (sa' & Hsubjects & Hfields).
  exists sa'. split; [|exact Hfields].
  injection Hr as <-. by injection Hsubjects as <-.
Defined.

(** The binding of the user [bob], whose name is not a service account
    user name, is remapped without error, [bob] left out, in its every run. *)
Lemma remap_nonconforming_user_no_error :
  bob ∈ Subjects (mkClusterRoleBinding meta [bob] role)
  ∧ Kind bob = UserKind
  ∧ @serviceaccount.SplitUsername dns1123.validation (Name bob)
    = inl invalidUsernameErr
  ∧ runs ∅
      (@prepareClusterRoleBindingForApply dns1123.validation
         (mkClusterRoleBinding meta [bob] role) {["ns-a" := "ns-c"]})
      [] ∅ (inr (setSubjects [] (mkClusterRoleBinding meta [bob] role)))
  ∧ ∀ σ t σ' r,
      runs σ
        (@prepareClusterRoleBindingForApply dns1123.validation
           (mkClusterRoleBinding meta [bob] role) {["ns-a" := "ns-c"]})
        t σ' r →
      r = inr (setSubjects [] (mkClusterRoleBinding meta [bob] role)).
Proof.
  split; [by apply list_elem_of_singleton|].
  split; [reflexivity|]. split; [reflexivity|]. split.
  - apply (@prepareClusterRoleBindingForApply_runs dns1123.validation
             (mkClusterRoleBinding meta [bob] role) _ ∅ _ singleMapping_order).
  - intros σ t σ' r Hrun.
    apply prepareClusterRoleBindingForApply_runs_inv in Hrun
      as (_ & _ & order & Horder & ->).
    by rewrite (range_order_small _ order _ ltac:(by rewrite map_size_singleton)
                  Horder singleMapping_order).
Qed.


(** The remap of the binding of [sa1] and [bob] is the remap of the
    binding of [sa1]. *)
Lemma remap_skips_nonconforming_users_witness :
  (∃ crb', (inr (setSubjects [setNamespace "ns-c" sa1]
                   (mkClusterRoleBinding meta [sa1; bob] role))
              : error + ClusterRoleBinding) = inr crb')
  ∧ runs ∅
      (@prepareClusterRoleBindingForApply dns1123.validation
         (setSubjects [sa1] (mkClusterRoleBinding meta [sa1; bob] role))
         {["ns-a" := "ns-c"]})
      [] ∅
      (inr (setSubjects [setNamespace "ns-c" sa1]
              (mkClusterRoleBinding meta [sa1; bob] role))).
Proof.
  apply (@remap_skips_nonconforming_users dns1123.validation
           (mkClusterRoleBinding meta [sa1; bob] role) {["ns-a" := "ns-c"]}
           ∅ [] ∅ _
           (@prepareClusterRoleBindingForApply_runs dns1123.validation
              (mkClusterRoleBinding meta [sa1; bob] role) _ ∅ _
              singleMapping_order)).
Defined.

(** The binding of [sa1] and [sa2] under the mapping ns-a -> ns-c,
    ns-b -> ns-d has a run for either order in which the range visits the two
    entries, and the two output sequences differ. *)
Lemma remap_order_not_deterministic :
  ∃ r1 r2,
    runs ∅
      (@prepareClusterRoleBindingForApply dns1123.validation
         (mkClusterRoleBinding meta [sa1; sa2] role) twoMappings) [] ∅ r1
    ∧ runs ∅
        (@prepareClusterRoleBindingForApply dns1123.validation
           (mkClusterRoleBinding meta [sa1; sa2] role) twoMappings) [] ∅ r2
    ∧ r1 = inr (setSubjects [setNamespace "ns-c" sa1; setNamespace "ns-d" sa2]
                  (mkClusterRoleBinding meta [sa1; sa2] role))
    ∧ r2 = inr (setSubjects [setNamespace "ns-d" sa2; setNamespace "ns-c" sa1]
                  (mkClusterRoleBinding meta [sa1; sa2] role))
    ∧ r1 ≠ r2.
Proof.
  eexists _, _. split; [|split; [|split; [|split]]].
  - apply (@prepareClusterRoleBindingForApply_runs dns1123.validation
             _ _ ∅ _ twoMappings_order_ab).
  - apply (@prepareClusterRoleBindingForApply_runs dns1123.validation
             _ _ ∅ _ twoMappings_order_ba).
  - reflexivity.
  - reflexivity.
  - discriminate.
Qed.

(** The outputs of the two runs above are permutations of each other. *)
Lemma remap_outputs_agree_up_to_order_witness :
  (∃ out1 out2,
     (inr (setSubjects [setNamespace "ns-c" sa1; setNamespace "ns-d" sa2]
             (mkClusterRoleBinding meta [sa1; sa2] role))
        : error + ClusterRoleBinding)
     = inr (setSubjects out1 (mkClusterRoleBinding meta [sa1; sa2] role))
     ∧ (inr (setSubjects [setNamespace "ns-d" sa2; setNamespace "ns-c" sa1]
               (mkClusterRoleBinding meta [sa1; sa2] role))
          : error + ClusterRoleBinding)
       = inr (setSubjects out2 (mkClusterRoleBinding meta [sa1; sa2] role))
     ∧ out1 ≡ₚ out2).
Proof.
  apply (@remap_outputs_agree_up_to_order dns1123.validation
           (mkClusterRoleBinding meta [sa1; sa2] role) twoMappings
           ∅ [] ∅ _ ∅ [] ∅ _
           (@prepareClusterRoleBindingForApply_runs dns1123.validation
              _ _ ∅ _ twoMappings_order_ab)
           (@prepareClusterRoleBindingForApply_runs dns1123.validation
              _ _ ∅ _ twoMappings_order_ba)).
Defined.

End RemapperExamples.

(** ** The merger *)

Section MergerFacts.
  Context `{Stringer Subject}.
  Implicit Types (σ : gmap string ClusterRoleBinding).
  Implicit Types (current incoming subjects : list Subject).

  (** The loop that fills the map computes the union with the subjects
      by identity. *)
Lemma insertSubjects_union subjects (m : gmap string Subject) :
  insertSubjects subjects m = subjectsByIdentity subjects ∪ m.
Proof.
  revert m. induction subjects as [|s l IH]; intros m.
  - unfold subjectsByIdentity. simpl. by rewrite (left_id_L ∅ (∪)).
  - change (insertSubjects (s :: l) m)
      with (insertSubjects l (<[String_ s := s]> m)).
    rewrite IH. unfold subjectsByIdentity. rewrite fmap_cons, reverse_cons.
    rewrite list_to_map_app. simpl.
    rewrite <- (assoc_L (∪)). f_equal.
    rewrite <- insert_union_l. by rewrite (left_id_L ∅ (∪)).
Qed.

Lemma insertSubjects_merged current incoming :
  insertSubjects incoming (insertSubjects current ∅)
  = mergedSubjects current incoming.
Proof.
  rewrite !insertSubjects_union. unfold mergedSubjects.
  by rewrite (right_id_L ∅ (∪)).
Qed.

Lemma subjectsByIdentity_Some subjects k s :
  subjectsByIdentity subjects !! k = Some s → s ∈ subjects ∧ String_ s = k.
Proof.
  unfold subjectsByIdentity. intros Hk%elem_of_list_to_map_2.
  apply elem_of_reverse, list_elem_of_fmap in Hk as (s' & [= -> ->] & Hin).
  done.
Qed.

Lemma subjectsByIdentity_is_Some subjects s :
  s ∈ subjects → is_Some (subjectsByIdentity subjects !! String_ s).
Proof.
  intros Hin. apply not_eq_None_Some. unfold subjectsByIdentity.
  rewrite <- not_elem_of_list_to_map. intros Hnot. apply Hnot.
  rewrite fmap_reverse, elem_of_reverse, <- list_fmap_compose.
  apply list_elem_of_fmap. by exists s.
Qed.

Lemma subjectsByIdentity_None subjects k :
  (∀ s, s ∈ subjects → String_ s ≠ k) → subjectsByIdentity subjects !! k = None.
Proof.
  intros Hk. apply eq_None_not_Some. intros [s Hs].
  apply subjectsByIdentity_Some in Hs as [Hin Heq]. by apply (Hk s).
Qed.

  (** The subject under an identity of a consistent list is the one of the
      list with that identity. *)
Lemma subjectsByIdentity_consistent subjects s :
  identityConsistent subjects → s ∈ subjects →
  subjectsByIdentity subjects !! String_ s = Some s.
Proof.
  intros Hcons Hin.
  destruct (subjectsByIdentity_is_Some subjects s Hin) as [s' Hs'].
  rewrite Hs'. f_equal.
  apply subjectsByIdentity_Some in Hs' as [Hin' Heq]. by apply Hcons.
Qed.

Lemma mergedSubjects_Some current incoming k s :
  mergedSubjects current incoming !! k = Some s →
  String_ s = k
  ∧ (s ∈ incoming ∨ (s ∈ current ∧ ∀ s', s' ∈ incoming → String_ s' ≠ k)).
Proof.
  unfold mergedSubjects. rewrite lookup_union_Some_raw.
  intros [Hk|[Hnone Hk]]; apply subjectsByIdentity_Some in Hk as [Hin Heq].
  - auto.
  - split; [done|]. right. split; [done|]. intros s' Hs' Heq'.
    destruct (subjectsByIdentity_is_Some incoming s' Hs') as [x Hx].
    rewrite Heq' in Hx. congruence.
Qed.

  (** Every entry of the merged map is under its own identity. *)
Lemma mergedSubjects_keyed current incoming :
  map_Forall (λ k s, String_ s = k) (mergedSubjects current incoming).
Proof. intros k s Hk. by apply mergedSubjects_Some in Hk as [? _]. Qed.

  (** The values of a visiting order are the values of the map. *)
Lemma elem_of_range_values (m : gmap string Subject) order s :
  range_order m order → s ∈ order.*2 ↔ ∃ k, m !! k = Some s.
Proof.
  unfold range_order. intros Horder. rewrite list_elem_of_fmap. split.
  - intros ([k s'] & -> & Hin). exists k.
    apply elem_of_map_to_list. by rewrite <- Horder.
  - intros [k Hk]. exists (k, s). split; [done|].
    rewrite Horder. by apply elem_of_map_to_list.
Qed.

  (** An order of a map whose entries are under their own identities
      is its values paired with their identities. *)
Lemma range_values_keyed (m : gmap string Subject) order :
  map_Forall (λ k s, String_ s = k) m → range_order m order →
  (λ s, (String_ s, s)) <$> order.*2 = order.
Proof.
  unfold range_order. intros Hkeyed Horder.
  rewrite <- list_fmap_compose. rewrite <- (list_fmap_id order) at 2.
  apply list_fmap_ext. intros i [k s] Hi. simpl. f_equal.
  apply Hkeyed. apply elem_of_map_to_list. rewrite <- Horder.
  by eapply list_elem_of_lookup_2.
Qed.

Lemma range_values_NoDup_identity (m : gmap string Subject) order :
  map_Forall (λ k s, String_ s = k) m → range_order m order →
  NoDup (String_ <$> order.*2).
Proof.
  intros Hkeyed Horder.
  assert (String_ <$> order.*2 = order.*1) as ->.
  { rewrite <- (range_values_keyed m order Hkeyed Horder) at 2.
    by rewrite <- (list_fmap_compose (λ s, (String_ s, s)) fst). }
  unfold range_order in Horder. rewrite Horder.
  apply NoDup_fst_map_to_list.
Qed.

  (** Reading back the values of such a map, in any order, gives the map. *)
Lemma subjectsByIdentity_range_values (m : gmap string Subject) order :
  map_Forall (λ k s, String_ s = k) m → range_order m order →
  subjectsByIdentity (order.*2) = m.
Proof.
  intros Hkeyed Horder. unfold subjectsByIdentity.
  rewrite (range_values_keyed m order Hkeyed Horder).
  symmetry. apply list_to_map_flip. rewrite reverse_Permutation.
  symmetry. exact Horder.
Qed.

  (** Merging the incoming subjects into the merged subjects again gives
      the merged subjects. *)
Lemma mergedSubjects_again current incoming order :
  range_order (mergedSubjects current incoming) order →
  mergedSubjects (order.*2) incoming = mergedSubjects current incoming.
Proof.
  intros Horder. unfold mergedSubjects at 1.
  rewrite (subjectsByIdentity_range_values _ order
             (mergedSubjects_keyed current incoming) Horder).
  unfold mergedSubjects. rewrite (assoc_L (∪)). by rewrite (idemp_L (∪)).
Qed.

  (** The runs of the merger: a get that fails otherwise than by
      not-found is the only call; a not-found is followed by one create of the
      incoming binding; a binding found is followed by one update of it with
      the merged subjects in some order.  A failed write changes nothing. *)
Lemma mergeAndUpdateClusterRoleBinding_runs_inv
    (newCRB : ClusterRoleBinding) σ t σ' r :
  runs σ (mergeAndUpdateClusterRoleBinding newCRB) t σ' r →
  (∃ err,
     IsNotFound err = false
     ∧ t = [CallGet (MetaName (Meta newCRB)) (inl err)]
     ∧ r = Some err ∧ σ' = σ)
  ∨ (∃ err resp,
       IsNotFound err = true ∧ σ !! MetaName (Meta newCRB) = None
       ∧ t = [CallGet (MetaName (Meta newCRB)) (inl err);
              CallCreate newCRB resp]
       ∧ r = errOf resp
       ∧ match resp with
         | inr crb' =>
             crb' = newCRB ∧ σ' = <[MetaName (Meta newCRB) := newCRB]> σ
         | inl _ => σ' = σ
         end)
  ∨ (∃ currentCRB order resp,
       σ !! MetaName (Meta newCRB) = Some currentCRB
       ∧ range_order
           (mergedSubjects (Subjects currentCRB) (Subjects newCRB)) order
       ∧ t = [CallGet (MetaName (Meta newCRB)) (inr currentCRB);
              CallUpdate (setSubjects (order.*2) currentCRB) resp]
       ∧ r = errOf resp
       ∧ match resp with
         | inr crb' =>
             crb' = setSubjects (order.*2) currentCRB
             ∧ is_Some (σ !! MetaName (Meta currentCRB))
             ∧ σ' = <[MetaName (Meta currentCRB) :=
                        setSubjects (order.*2) currentCRB]> σ
         | inl _ => σ' = σ
         end).
Proof.
  intros Hrun. apply runs_get_inv in Hrun as (resp & t' & -> & Hrun & Hget).
  destruct resp as [err|currentCRB]; simpl in Hrun.
  - destruct (IsNotFound err) eqn:Hnf.
    + right; left.
      apply runs_create_inv in Hrun as (resp & t'' & -> & Hrun).
      exists err, resp. split; [done|]. split; [by apply Hget|].
      destruct resp as [e|crb'].
      * apply runs_ret_inv in Hrun as (-> & -> & ->). done.
      * destruct Hrun as (-> & _ & Hrun).
        apply runs_ret_inv in Hrun as (-> & -> & ->). done.
    + left. apply runs_ret_inv in Hrun as (-> & -> & ->). eauto.
  - right; right. rewrite insertSubjects_merged in Hrun.
    apply runs_range_subjects_inv in Hrun as (order & Horder & Hrun).
    simpl in Hrun.
    apply runs_update_inv in Hrun as (resp & t'' & -> & Hrun).
    exists currentCRB, order, resp. split; [done|]. split; [done|].
    destruct resp as [e|crb'].
    + apply runs_ret_inv in Hrun as (-> & -> & ->). done.
    + destruct Hrun as (-> & Hsome & Hrun).
      apply runs_ret_inv in Hrun as (-> & -> & ->). done.
Qed.

  (** The merger creates the binding where there is none. *)
Lemma mergeAndUpdateClusterRoleBinding_runs_create
    (newCRB : ClusterRoleBinding) σ :
  σ !! MetaName (Meta newCRB) = None →
  runs σ (mergeAndUpdateClusterRoleBinding newCRB)
    [CallGet (MetaName (Meta newCRB)) (inl (StatusError "NotFound"));
     CallCreate newCRB (inr newCRB)]
    (<[MetaName (Meta newCRB) := newCRB]> σ) None.
Proof.
  intros Hnone. eapply runs_get_absent; [done|done|]. simpl.
  eapply runs_create_ok; [done|]. simpl. constructor.
Qed.

  (** Where there is no binding and the create is refused, the merger
      returns the error of the create and changes nothing. *)
Lemma mergeAndUpdateClusterRoleBinding_runs_create_fail
    (newCRB : ClusterRoleBinding) σ (err : error) :
  σ !! MetaName (Meta newCRB) = None →
  runs σ (mergeAndUpdateClusterRoleBinding newCRB)
    [CallGet (MetaName (Meta newCRB)) (inl (StatusError "NotFound"));
     CallCreate newCRB (inl err)]
    σ (Some err).
Proof.
  intros Hnone. eapply runs_get_absent; [done|done|]. simpl.
  eapply runs_create_fail. simpl. constructor.
Qed.

  (** The merger updates the binding it finds, for every order in which
      the range may visit the merged subjects, and whether or not the update
      is accepted. *)
Lemma mergeAndUpdateClusterRoleBinding_runs_update
    (newCRB currentCRB : ClusterRoleBinding) σ order resp σ' :
  σ !! MetaName (Meta newCRB) = Some currentCRB →
  range_order (mergedSubjects (Subjects currentCRB) (Subjects newCRB)) order →
  match resp with
  | inr crb' =>
      crb' = setSubjects (order.*2) currentCRB
      ∧ is_Some (σ !! MetaName (Meta currentCRB))
      ∧ σ' = <[MetaName (Meta currentCRB) :=
                 setSubjects (order.*2) currentCRB]> σ
  | inl _ => σ' = σ
  end →
  runs σ (mergeAndUpdateClusterRoleBinding newCRB)
    [CallGet (MetaName (Meta newCRB)) (inr currentCRB);
     CallUpdate (setSubjects (order.*2) currentCRB) resp]
    σ' (errOf resp).
Proof.
  intros Hget Horder Hresp. eapply runs_get_found; [done|]. simpl.
  rewrite insertSubjects_merged.
  eapply runs_range_subjects; [exact Horder|]. simpl.
  destruct resp as [e|crb'].
  - subst σ'. eapply runs_update_fail. simpl. constructor.
  - destruct Hresp as (-> & Hsome & ->).
    eapply runs_update_ok; [done|]. simpl. constructor.
Qed.

  (** On a cluster that stores its bindings under their names the merger
      can succeed. *)
Lemma mergeAndUpdateClusterRoleBinding_succeeds
    (newCRB : ClusterRoleBinding) σ :
  cluster_wf σ →
  ∃ t σ', runs σ (mergeAndUpdateClusterRoleBinding newCRB) t σ' None.
Proof.
  intros Hwf. destruct (σ !! MetaName (Meta newCRB)) as [currentCRB|] eqn:Hget.
  - set (order := map_to_list
                    (mergedSubjects (Subjects currentCRB) (Subjects newCRB))).
    eexists _, _.
    apply (mergeAndUpdateClusterRoleBinding_runs_update newCRB currentCRB σ
             order (inr (setSubjects (order.*2) currentCRB)) _ Hget);
      [by unfold range_order|].
    split; [done|]. split; [|done].
    rewrite (Hwf _ _ Hget). eauto.
  - eexists _, _.
    by apply mergeAndUpdateClusterRoleBinding_runs_create.
Qed.

End MergerFacts.

Section MergerClaims.
  Context `{Stringer Subject}.
  Implicit Types (σ : gmap string ClusterRoleBinding).

(** C5: every run of the merger has one of three shapes.  A get that
    fails otherwise than by not-found is the only call, and its error is
    returned.  A get that reports not-found is followed by exactly one call,
    a create of the incoming binding as it is, and there is no update; the
    error of the create is returned when it fails, [nil] when it succeeds.  A
    get that finds the binding is followed by exactly one call, an update; the
    error of the update is returned when it fails, [nil] when it succeeds.  No
    call is repeated. *)
Theorem merge_calls (newCRB : ClusterRoleBinding) σ t σ' r :
  runs σ (mergeAndUpdateClusterRoleBinding newCRB) t σ' r →
  (∃ err,
     IsNotFound err = false
     ∧ t = [CallGet (MetaName (Meta newCRB)) (inl err)]
     ∧ r = Some err ∧ σ' = σ)
  ∨ (∃ err resp,
       IsNotFound err = true
       ∧ t = [CallGet (MetaName (Meta newCRB)) (inl err);
              CallCreate newCRB resp]
       ∧ match resp with
         | inl e => r = Some e
         | inr _ => r = None
         end)
  ∨ (∃ currentCRB written resp,
       t = [CallGet (MetaName (Meta newCRB)) (inr currentCRB);
            CallUpdate written resp]
       ∧ match resp with
         | inl e => r = Some e
         | inr _ => r = None
         end).
Proof.
  intros Hrun.
  apply mergeAndUpdateClusterRoleBinding_runs_inv in Hrun
    as [(err & ? & ? & ? & ?)
       |[(err & resp & ? & ? & ? & Hr & ?)
        |(currentCRB & order & resp & ? & ? & ? & Hr & ?)]].
  - left. eauto.
  - right; left. exists err, resp. split; [done|]. split; [done|].
    by destruct resp.
  - right; right. eexists _, _, resp. split; [done|]. by destruct resp.
Qed.

(** C3, as the code has it: when the get finds the destination binding,
    the one call that follows is an update of it, with its metadata and role
    reference, whose subjects are the values, in some order, of the union of
    the current and the incoming subjects keyed by canonical identity, the
    incoming subject standing where identities collide.  No two written
    subjects share an identity; a written subject is an incoming one, or a
    current one whose identity no incoming subject has; for every incoming
    subject an incoming subject of its identity is written; for every current
    subject whose identity no incoming subject has, a current subject of its
    identity is written, and the subject itself when no other current subject
    has its identity.  With current subjects X, Y and incoming Y', Z, where Y'
    has the identity of Y and the identities of X, Y, Z differ, the written
    subjects are X, Y', Z in some order. *)
Theorem merge_union_incoming_wins (newCRB currentCRB : ClusterRoleBinding)
    σ t σ' r :
  runs σ (mergeAndUpdateClusterRoleBinding newCRB)
    (CallGet (MetaName (Meta newCRB)) (inr currentCRB) :: t) σ' r →
  ∃ written resp,
    t = [CallUpdate written resp]
    ∧ Meta written = Meta currentCRB ∧ Role written = Role currentCRB
    ∧ (λ s, (String_ s, s)) <$> Subjects written
      ≡ₚ map_to_list
           (mergedSubjects (Subjects currentCRB) (Subjects newCRB))
    ∧ NoDup (String_ <$> Subjects written)
    ∧ (∀ x, x ∈ Subjects written →
         x ∈ Subjects newCRB
         ∨ (x ∈ Subjects currentCRB
            ∧ ∀ s, s ∈ Subjects newCRB → String_ s ≠ String_ x))
    ∧ (∀ s, s ∈ Subjects newCRB →
         ∃ s', s' ∈ Subjects written ∧ s' ∈ Subjects newCRB
               ∧ String_ s' = String_ s)
    ∧ (∀ d, d ∈ Subjects currentCRB →
         (∀ s, s ∈ Subjects newCRB → String_ s ≠ String_ d) →
         (∃ d', d' ∈ Subjects written ∧ d' ∈ Subjects currentCRB
                ∧ String_ d' = String_ d)
         ∧ ((∀ d', d' ∈ Subjects currentCRB → String_ d' = String_ d →
               d' = d) →
            d ∈ Subjects written))
    ∧ (∀ X Y Y' Z,
         Subjects currentCRB = [X; Y] → Subjects newCRB = [Y'; Z] →
         String_ Y' = String_ Y →
         String_ X ≠ String_ Y → String_ X ≠ String_ Z →
         String_ Y ≠ String_ Z →
         Subjects written ≡ₚ [X; Y'; Z]).
Proof.
  intros Hrun.
  apply mergeAndUpdateClusterRoleBinding_runs_inv in Hrun
    as [(err & ? & [=] & ?)
       |[(err & resp & ? & ? & [=] & ?)
        |(cur & order & resp & Hget & Horder & [= -> ->] & Hr & Hσ')]].
  exists (setSubjects (order.*2) cur), resp. split; [done|].
  split; [done|]. split; [done|]. simpl.
  split; [|split; [|split; [|split; [|split]]]].
  - rewrite (range_values_keyed _ order (mergedSubjects_keyed _ _) Horder).
    exact Horder.
  - eapply range_values_NoDup_identity; [|exact Horder].
    apply mergedSubjects_keyed.
  - intros x Hx.
    apply (elem_of_range_values _ _ _ Horder) in Hx as [k Hk].
    apply mergedSubjects_Some in Hk as [<- Hk]. exact Hk.
  - intros s Hs.
    destruct (subjectsByIdentity_is_Some _ _ Hs) as [s' Hs'].
    exists s'. split.
    + apply (elem_of_range_values _ _ _ Horder). exists (String_ s).
      unfold mergedSubjects. by apply lookup_union_Some_l.
    + by apply subjectsByIdentity_Some in Hs'.
  - intros d Hd Hfree.
    destruct (subjectsByIdentity_is_Some _ _ Hd) as [d' Hd'].
    assert (d' ∈ order.*2) as Hwritten.
    { apply (elem_of_range_values _ _ _ Horder). exists (String_ d).
      unfold mergedSubjects. apply lookup_union_Some_raw. right.
      split; [|done]. by apply subjectsByIdentity_None. }
    apply subjectsByIdentity_Some in Hd' as [Hin Heq].
    split; [by exists d'|].
    intros Honly. by rewrite <- (Honly d' Hin Heq).
  - intros X Y Y' Z Hcur Hnew HY' HXY HXZ HYZ.
    unfold range_order in Horder. rewrite Horder.
    rewrite <- insertSubjects_merged, Hcur, Hnew.
    unfold insertSubjects. simpl. rewrite HY', insert_insert_eq.
    rewrite map_to_list_insert
      by (rewrite !lookup_insert_ne by done; apply lookup_empty).
    rewrite map_to_list_insert
      by (rewrite lookup_insert_ne by done; apply lookup_empty).
    rewrite map_to_list_insert by apply lookup_empty.
    rewrite map_to_list_empty. simpl.
    exact (reverse_Permutation [X; Y'; Z]).
Qed.

(** C10: when the get finds the destination binding, the object the
    merger writes is that binding with only its subjects replaced: its
    metadata and its role reference are the current ones.  Of the incoming
    binding only the name, by which the get looks, and the subjects matter: an
    incoming binding with the same name and subjects, whatever its other
    metadata and its role reference, has the same run. *)
Theorem merge_update_keeps_destination_fields
    (newCRB currentCRB : ClusterRoleBinding) σ t σ' r :
  runs σ (mergeAndUpdateClusterRoleBinding newCRB)
    (CallGet (MetaName (Meta newCRB)) (inr currentCRB) :: t) σ' r →
  (∃ written resp,
     t = [CallUpdate written resp]
     ∧ Meta written = Meta currentCRB ∧ Role written = Role currentCRB)
  ∧ ∀ newCRB',
      MetaName (Meta newCRB') = MetaName (Meta newCRB) →
      Subjects newCRB' = Subjects newCRB →
      runs σ (mergeAndUpdateClusterRoleBinding newCRB')
        (CallGet (MetaName (Meta newCRB)) (inr currentCRB) :: t) σ' r.
Proof.
  intros Hrun.
  apply mergeAndUpdateClusterRoleBinding_runs_inv in Hrun
    as [(err & ? & [=] & ?)
       |[(err & resp & ? & ? & [=] & ?)
        |(cur & order & resp & Hget & Horder & [= -> ->] & -> & Hσ')]].
  split; [eexists _, _; split; [reflexivity|]; split; reflexivity|].
  intros newCRB' Hname Hsubjects. rewrite <- Hname.
  apply mergeAndUpdateClusterRoleBinding_runs_update.
  - by rewrite Hname.
  - by rewrite Hsubjects.
  - destruct resp; [done|]. exact Hσ'.
Qed.

(** C4, as the code has it: on a cluster that stores its bindings under
    their names, after a merge that succeeded, a second merge of the same
    incoming binding leaves the set of the destination binding's subjects as
    it was, provided the destination binding existed before the first merge or
    no two different incoming subjects share a canonical identity. *)
Theorem merge_twice_same_subject_set (newCRB : ClusterRoleBinding)
    σ0 t1 σ1 t2 σ2 r2 :
  cluster_wf σ0 →
  is_Some (σ0 !! MetaName (Meta newCRB))
  ∨ identityConsistent (Subjects newCRB) →
  runs σ0 (mergeAndUpdateClusterRoleBinding newCRB) t1 σ1 None →
  runs σ1 (mergeAndUpdateClusterRoleBinding newCRB) t2 σ2 r2 →
  ∃ crb1 crb2,
    σ1 !! MetaName (Meta newCRB) = Some crb1
    ∧ σ2 !! MetaName (Meta newCRB) = Some crb2
    ∧ ∀ s, s ∈ Subjects crb2 ↔ s ∈ Subjects crb1.
Proof.
  intros Hwf Hpre Hrun1 Hrun2.
  set (name := MetaName (Meta newCRB)) in *.
  (* the binding after the first merge, and what the second merge writes *)
  assert (∃ crb1,
    σ1 !! name = Some crb1 ∧ MetaName (Meta crb1) = name
    ∧ ∀ order,
        range_order (mergedSubjects (Subjects crb1) (Subjects newCRB)) order →
        ∀ s, s ∈ order.*2 ↔ s ∈ Subjects crb1) as (crb1 & Hσ1 & Hname1 & Hsame).
  { apply mergeAndUpdateClusterRoleBinding_runs_inv in Hrun1
      as [(err & ? & ? & [=] & ?)
         |[(err & resp & Hnf & Hnone & _ & Hr & Hσ1)
          |(cur & order1 & resp & Hget & Horder1 & _ & Hr & Hσ1)]].
    - (* created *)
      destruct resp as [e|crb']; [done|]. destruct Hσ1 as [_ ->].
      destruct Hpre as [[? Hsome]|Hcons]; [fold name in Hnone; congruence|].
      exists newCRB. split; [by rewrite lookup_insert_eq|]. split; [done|].
      intros order Horder s.
      rewrite (elem_of_range_values _ _ _ Horder).
      unfold mergedSubjects. rewrite (idemp_L (∪)). split.
      + intros [k Hk]. by apply subjectsByIdentity_Some in Hk as [? _].
      + intros Hs. exists (String_ s). by apply subjectsByIdentity_consistent.
    - (* updated *)
      destruct resp as [e|crb']; [done|]. destruct Hσ1 as (_ & _ & ->).
      pose proof (Hwf _ _ Hget) as Hcur. fold name in Hcur.
      exists (setSubjects (order1.*2) cur). rewrite Hcur.
      split; [by rewrite lookup_insert_eq|]. split; [done|].
      intros order Horder s. simpl in Horder.
      rewrite (mergedSubjects_again _ _ _ Horder1) in Horder.
      rewrite (elem_of_range_values _ _ _ Horder). simpl.
      by rewrite (elem_of_range_values _ _ _ Horder1). }
  exists crb1.
  apply mergeAndUpdateClusterRoleBinding_runs_inv in Hrun2
    as [(err & ? & ? & ? & ->)
       |[(err & resp & Hnf & Hnone & _)
        |(cur & order2 & resp & Hget & Horder2 & _ & Hr & Hσ2)]].
  - exists crb1. done.
  - fold name in Hnone. congruence.
  - fold name in Hget. rewrite Hσ1 in Hget. injection Hget as <-.
    destruct resp as [e|crb'].
    + subst σ2. exists crb1. done.
    + destruct Hσ2 as (_ & _ & ->). rewrite Hname1.
      exists (setSubjects (order2.*2) crb1).
      split; [done|]. split; [by rewrite lookup_insert_eq|].
      intros s. simpl. by apply Hsame.
Qed.

End MergerClaims.

(** *** The merger at concrete bindings *)

Section MergerExamples.
  Import Example.

  (** The destination holds [sa1] and [aliasA]; the incoming binding holds
      [aliasB], of the same identity string as [aliasA], and [sa2]. *)
Lemma merge_example_run :
  runs {["view-binding" := destBinding]}
    (@mergeAndUpdateClusterRoleBinding Subject_String incomingBinding)
    (CallGet (MetaName (Meta incomingBinding)) (inr destBinding)
       :: [CallUpdate writtenBinding (inr writtenBinding)])
    {["view-binding" := writtenBinding]} None.
Proof.
  pose proof (@mergeAndUpdateClusterRoleBinding_runs_update Subject_String
    incomingBinding destBinding {["view-binding" := destBinding]}
    (map_to_list
       (@mergedSubjects Subject_String (Subjects destBinding)
          (Subjects incomingBinding)))
    (inr writtenBinding) {["view-binding" := writtenBinding]}) as Hrun.
  apply Hrun.
  - apply lookup_singleton_eq.
  - by unfold range_order.
  - split; [by vm_compute|]. split.
    + exists destBinding. apply lookup_singleton_eq.
    + simpl.
      replace (setSubjects _ destBinding) with writtenBinding by by vm_compute.
      by rewrite insert_singleton_eq.
Defined.

(** A merge into an empty cluster whose create is refused is a get and
    one create, and returns the error of the create. *)
Lemma merge_calls_witness :
  ∃ err resp,
    IsNotFound err = true
    ∧ [CallGet "view-binding" (inl (StatusError "NotFound"));
       CallCreate saBinding (inl (StatusError "Forbidden"))]
      = [CallGet (MetaName (Meta saBinding)) (inl err);
         CallCreate saBinding resp]
    ∧ match resp with
      | inl e => Some (StatusError "Forbidden") = Some e
      | inr _ => Some (StatusError "Forbidden") = None
      end.
Proof.
  destruct (@merge_calls Subject_String saBinding ∅ _ _ _
              (@mergeAndUpdateClusterRoleBinding_runs_create_fail
                 Subject_String saBinding ∅ (StatusError "Forbidden")
                 (lookup_empty _)))
    as [(err & _ & Ht & _)|[Hcreate|(cur & written & resp & Ht & _)]].
  - discriminate Ht.
  - exact Hcreate.
  - discriminate Ht.
Defined.

(** In the example run [aliasB] replaces [aliasA]. *)
Lemma merge_union_incoming_wins_witness :
  Subjects writtenBinding ≡ₚ [sa1; aliasB; sa2].
Proof.
  destruct (@merge_union_incoming_wins Subject_String _ _ _ _ _ _
              merge_example_run)
    as (written & resp & Ht & _ & _ & _ & _ & _ & _ & _ & Hexample).
  injection Ht as <- _.
  by apply (Hexample sa1 aliasA aliasB sa2).
Defined.

(** The merge of [sa2] into the binding of [aliasA] and [aliasB] writes
    [sa2] and [aliasB]: [aliasA], whose identity string no incoming subject
    has, is not kept, in any order the range may take. *)
Lemma merge_drops_destination_alias :
  aliasA ∈ Subjects aliasBinding
  ∧ (∀ s, s ∈ Subjects sa2Binding → Subject_String s ≠ Subject_String aliasA)
  ∧ runs {["view-binding" := aliasBinding]}
      (@mergeAndUpdateClusterRoleBinding Subject_String sa2Binding)
      [CallGet "view-binding" (inr aliasBinding);
       CallUpdate aliasDropped (inr aliasDropped)]
      {["view-binding" := aliasDropped]} None
  ∧ (aliasA ∉ Subjects aliasDropped)
  ∧ ∀ t σ' r,
      runs {["view-binding" := aliasBinding]}
        (@mergeAndUpdateClusterRoleBinding Subject_String sa2Binding)
        (CallGet "view-binding" (inr aliasBinding) :: t) σ' r →
      ∃ written resp,
        t = [CallUpdate written resp] ∧ aliasA ∉ Subjects written.
Proof.
  split; [apply elem_of_cons; by left|]. split.
  { intros s Hs. apply list_elem_of_singleton in Hs as ->. done. }
  split; [|split].
  - pose proof (@mergeAndUpdateClusterRoleBinding_runs_update Subject_String
      sa2Binding aliasBinding {["view-binding" := aliasBinding]}
      (map_to_list
         (@mergedSubjects Subject_String (Subjects aliasBinding)
            (Subjects sa2Binding)))
      (inr aliasDropped) {["view-binding" := aliasDropped]}) as Hrun.
    apply Hrun.
    + apply lookup_singleton_eq.
    + by unfold range_order.
    + split; [by vm_compute|]. split.
      * exists aliasBinding. apply lookup_singleton_eq.
      * simpl.
        replace (setSubjects _ aliasBinding) with aliasDropped by by vm_compute.
        by rewrite insert_singleton_eq.
  - intros Hin. apply elem_of_cons in Hin as [?|Hin]; [done|].
    by apply list_elem_of_singleton in Hin.
  - intros t σ' r Hrun.
    apply mergeAndUpdateClusterRoleBinding_runs_inv in Hrun
      as [(err & _ & [=] & _)
         |[(err & resp & _ & _ & [=] & _)
          |(cur & order & resp & _ & Horder & [= <- ->] & _)]].
    eexists _, resp. split; [reflexivity|]. simpl. intros Hin.
    apply (elem_of_range_values _ _ _ Horder) in Hin as [k Hk].
    apply elem_of_map_to_list in Hk.
    replace (map_to_list
               (mergedSubjects (Subjects aliasBinding) (Subjects sa2Binding)))
      with [(Subject_String sa2, sa2); (Subject_String aliasB, aliasB)]
      in Hk by by vm_compute.
    apply elem_of_cons in Hk as [[=]|Hk].
    by apply list_elem_of_singleton in Hk.
Qed.

(** In the example run the written binding has the metadata and the role
    reference of the destination. *)
Lemma merge_update_keeps_destination_fields_witness :
  ∃ written resp,
    [CallUpdate writtenBinding (inr writtenBinding)]
    = [CallUpdate written resp]
    ∧ Meta written = meta ∧ Role written = role.
Proof.
  exact (proj1 (@merge_update_keeps_destination_fields Subject_String _ _ _ _ _ _
                  merge_example_run)).
Defined.

  (** The subjects of the examples other than the two aliases have
      different identity strings. *)
Lemma example_subjects_consistent :
  @identityConsistent Subject_String [sa1; sa2].
Proof.
  intros s1 s2 Hs1 Hs2.
  apply elem_of_cons in Hs1 as [->|Hs1];
    [|apply list_elem_of_singleton in Hs1 as ->];
    (apply elem_of_cons in Hs2 as [->|Hs2];
       [|apply list_elem_of_singleton in Hs2 as ->]);
    done.
Defined.

Lemma merge_first_run :
  runs ∅ (@mergeAndUpdateClusterRoleBinding Subject_String twoBinding)
    [CallGet "view-binding" (inl (StatusError "NotFound"));
     CallCreate twoBinding (inr twoBinding)]
    {["view-binding" := twoBinding]} None.
Proof.
  exact (@mergeAndUpdateClusterRoleBinding_runs_create Subject_String
           twoBinding ∅ (lookup_empty _)).
Defined.

Lemma merge_second_run :
  runs {["view-binding" := twoBinding]}
    (@mergeAndUpdateClusterRoleBinding Subject_String twoBinding)
    [CallGet "view-binding" (inr twoBinding);
     CallUpdate twoBinding (inr twoBinding)]
    {["view-binding" := twoBinding]} None.
Proof.
  pose proof (@mergeAndUpdateClusterRoleBinding_runs_update Subject_String
    twoBinding twoBinding {["view-binding" := twoBinding]}
    (map_to_list
       (@mergedSubjects Subject_String (Subjects twoBinding)
          (Subjects twoBinding)))
    (inr twoBinding) {["view-binding" := twoBinding]}) as Hrun.
  apply Hrun.
  - apply lookup_singleton_eq.
  - by unfold range_order.
  - split; [by vm_compute|]. split.
    + exists twoBinding. apply lookup_singleton_eq.
    + simpl.
      replace (setSubjects _ twoBinding) with twoBinding by by vm_compute.
      by rewrite insert_singleton_eq.
Defined.

(** Two merges of [sa1] and [sa2] into an empty cluster leave the same
    subjects. *)
Lemma merge_twice_same_subject_set_witness :
  ∃ crb1 crb2 : ClusterRoleBinding,
    ({["view-binding" := twoBinding]} : gmap string ClusterRoleBinding)
      !! MetaName (Meta twoBinding) = Some crb1
    ∧ ({["view-binding" := twoBinding]} : gmap string ClusterRoleBinding)
        !! MetaName (Meta twoBinding) = Some crb2
    ∧ ∀ s, s ∈ Subjects crb2 ↔ s ∈ Subjects crb1.
Proof.
  eapply (@merge_twice_same_subject_set Subject_String twoBinding ∅ _ _ _ _ None).
  - intros name crb Hlookup. by rewrite lookup_empty in Hlookup.
  - right. exact example_subjects_consistent.
  - exact merge_first_run.
  - exact merge_second_run.
Defined.

(** The first merge of [aliasA] and [aliasB] into an empty cluster
    creates the binding with both; the second merge of the same
    incoming binding finds it, keys both subjects by their one identity
    string, and writes [aliasB] alone, in every run that succeeds. *)
Lemma merge_twice_changes_subject_set :
  ∃ t1 t2,
    runs ∅ (@mergeAndUpdateClusterRoleBinding Subject_String aliasBinding) t1
      {["view-binding" := aliasBinding]} None
    ∧ runs {["view-binding" := aliasBinding]}
        (@mergeAndUpdateClusterRoleBinding Subject_String aliasBinding) t2
        {["view-binding" := aliasMerged]} None
    ∧ t1 = [CallGet "view-binding" (inl (StatusError "NotFound"));
            CallCreate aliasBinding (inr aliasBinding)]
    ∧ t2 = [CallGet "view-binding" (inr aliasBinding);
            CallUpdate aliasMerged (inr aliasMerged)]
    ∧ aliasA ∈ Subjects aliasBinding
    ∧ (aliasA ∉ Subjects aliasMerged)
    ∧ ∀ t σ r,
        runs {["view-binding" := aliasBinding]}
          (@mergeAndUpdateClusterRoleBinding Subject_String aliasBinding) t σ r →
        r = None → σ = {["view-binding" := aliasMerged]}.
Proof.
  eexists _, _.
  split; [|split; [|split; [reflexivity|split; [reflexivity|split; [|split]]]]].
  - exact (@mergeAndUpdateClusterRoleBinding_runs_create Subject_String
             aliasBinding ∅ (lookup_empty _)).
  - pose proof (@mergeAndUpdateClusterRoleBinding_runs_update Subject_String
      aliasBinding aliasBinding {["view-binding" := aliasBinding]}
      (map_to_list
         (@mergedSubjects Subject_String (Subjects aliasBinding)
            (Subjects aliasBinding)))
      (inr aliasMerged) {["view-binding" := aliasMerged]}) as Hrun.
    apply Hrun.
    + apply lookup_singleton_eq.
    + by unfold range_order.
    + split; [by vm_compute|]. split.
      * exists aliasBinding. apply lookup_singleton_eq.
      * simpl.
        replace (setSubjects _ aliasBinding) with aliasMerged by by vm_compute.
        by rewrite insert_singleton_eq.
  - apply elem_of_cons. by left.
  - intros Hin. by apply list_elem_of_singleton in Hin.
  - intros t σ r Hrun ->.
    apply mergeAndUpdateClusterRoleBinding_runs_inv in Hrun
      as [(err & _ & _ & [=] & _)
         |[(err & resp & _ & Hnone & _)
          |(cur & order & resp & Hget & Horder & _ & Hr & Hσ)]].
    + by rewrite lookup_singleton_eq in Hnone.
    + rewrite lookup_singleton_eq in Hget. injection Hget as <-.
      destruct resp as [e|crb']; [done|]. destruct Hσ as (_ & _ & ->).
      assert (order = [(Subject_String aliasB, aliasB)]) as ->.
      { apply Permutation_singleton_r. unfold range_order in Horder.
        rewrite Horder. by vm_compute. }
      simpl. by rewrite insert_singleton_eq.
Qed.

End MergerExamples.

(** * Further properties *)

(** ** The classifier, kind by kind *)

Section ClassifierMore.
  Context `{NameValidation}.
  Import gostrings serviceaccount.

  (** The classifier compares the namespace a subject names with the one
      asked for. *)
Lemma subjectInNamespace_namespaceOf (subject : Subject) (namespace : string) :
  subjectInNamespace subject namespace
  = (bool_decide (namespaceOf subject = Some namespace), None).
Proof.
  unfold subjectInNamespace, namespaceOf.
  destruct (decide (Kind subject = ServiceAccountKind)) as [Hsa|Hsa].
  { case_decide; [subst; by rewrite bool_decide_eq_true_2|].
    rewrite bool_decide_eq_false_2; [done|congruence]. }
  destruct (decide (Kind subject = UserKind)) as [Hu|Hu].
  { destruct (SplitUsername (Name subject)) as [err|[userNamespace username]];
      [done|].
    case_decide; [subst; by rewrite bool_decide_eq_true_2|].
    rewrite bool_decide_eq_false_2; [done|congruence]. }
  destruct (decide (Kind subject = GroupKind)); [|done].
  case_decide as Heq; [rewrite Heq; by rewrite bool_decide_eq_true_2|].
  rewrite bool_decide_eq_false_2; [done|congruence].
Qed.

Lemma subjectInNamespace_true (subject : Subject) (namespace : string) :
  subjectInNamespace subject namespace = (true, None)
  ↔ namespaceOf subject = Some namespace.
Proof.
  rewrite subjectInNamespace_namespaceOf. split.
  - intros [= Hb]. by apply bool_decide_eq_true in Hb.
  - intros Hns. by rewrite bool_decide_eq_true_2.
Qed.

Lemma subjectInNamespace_fst_true (subject : Subject) (namespace : string) :
  (subjectInNamespace subject namespace).1 = true
  ↔ subjectInNamespace subject namespace = (true, None).
Proof.
  rewrite subjectInNamespace_namespaceOf. simpl. split; [by intros ->|].
  by intros [= ->].
Qed.

Lemma subjectInNamespace_unique (subject : Subject) (N1 N2 : string) :
  subjectInNamespace subject N1 = (true, None) →
  subjectInNamespace subject N2 = (true, None) →
  N1 = N2.
Proof. rewrite !subjectInNamespace_true. congruence. Qed.

(** X1: a subject is in at most one namespace: when the classifier finds
    it in two namespaces, the two are the same. *)
Theorem subject_in_at_most_one_namespace (subject : Subject) (N1 N2 : string) :
  subjectInNamespace subject N1 = (true, None) →
  subjectInNamespace subject N2 = (true, None) →
  N1 = N2.
Proof.
  rewrite !subjectInNamespace_true. congruence.
Qed.

(** X2: a Group subject is in the namespace [N] exactly when its name is
    the user name prefix [system:serviceaccount:] followed by [N], or is [N]
    itself and does not start with that prefix. *)
Theorem group_subject_in_namespace_iff (subject : Subject) (N : string) :
  Kind subject = GroupKind →
  subjectInNamespace subject N = (true, None)
  ↔ Name subject = ServiceAccountUsernamePrefix +:+ N
    ∨ (HasPrefix (Name subject) ServiceAccountUsernamePrefix = false
       ∧ Name subject = N).
Proof.
  intros Hkind. rewrite subjectInNamespace_true. unfold namespaceOf.
  rewrite Hkind. rewrite decide_False by done. rewrite decide_False by done.
  rewrite decide_True by done. unfold TrimPrefix, HasPrefix.
  destruct (stripPrefix ServiceAccountUsernamePrefix (Name subject))
    as [r|] eqn:Hstrip.
  - apply stripPrefix_Some in Hstrip. split.
    + intros [= ->]. by left.
    + intros [Hname|[? _]]; [|done]. rewrite Hstrip in Hname.
      f_equal. by apply (inj (String.app ServiceAccountUsernamePrefix)).
  - split.
    + intros [= ->]. by right.
    + intros [Hname|[_ ->]]; [|done].
      rewrite Hname, stripPrefix_app in Hstrip. done.
Qed.

End ClassifierMore.

(** The service account [sa1] is in ns-a, and in ns-a only. *)
Lemma subject_in_at_most_one_namespace_witness :
  ("ns-a" : string) = "ns-a".
Proof.
  apply (@subject_in_at_most_one_namespace dns1123.validation Example.sa1);
    reflexivity.
Defined.

(** A group named by the bare namespace ns-a is found to be in ns-a. *)
Lemma group_subject_in_namespace_iff_witness :
  @subjectInNamespace dns1123.validation
    (mkSubject "Group" "rbac.authorization.k8s.io" "ns-a" "") "ns-a"
  = (true, None).
Proof.
  apply (@group_subject_in_namespace_iff dns1123.validation
           (mkSubject "Group" "rbac.authorization.k8s.io" "ns-a" "") "ns-a");
    [reflexivity|].
  right. split; reflexivity.
Defined.

(** ** The scopers *)

Section ScoperFacts.
  Context `{NameValidation}.

Lemma scanSubjects_Exists (subjects : list Subject) (namespace : string) :
  scanSubjects subjects namespace
  = if bool_decide
         (Exists (λ s, subjectInNamespace s namespace = (true, None)) subjects)
    then Some (true, None) else None.
Proof.
  induction subjects as [|s rest IH]; [done|].
  cbn [scanSubjects].
  - assert (bool_decide ((None : option error) ≠ None) = false) as Hnil.
    { apply bool_decide_eq_false_2. intros Hn. by apply Hn. }
    rewrite subjectInNamespace_namespaceOf.
    destruct (decide (namespaceOf s = Some namespace)) as [Hs|Hs].
    + rewrite (bool_decide_eq_true_2 _ Hs). simpl. rewrite ?Hnil. simpl.
      rewrite bool_decide_eq_true_2; [done|].
      apply Exists_cons_hd. by apply subjectInNamespace_true.
    + rewrite (bool_decide_eq_false_2 _ Hs). simpl. rewrite ?Hnil. simpl.
      rewrite IH.
      assert (Exists (λ s, subjectInNamespace s namespace = (true, None))
                (s :: rest)
              ↔ Exists (λ s, subjectInNamespace s namespace = (true, None))
                  rest) as Hiff.
      { rewrite Exists_cons, subjectInNamespace_true. tauto. }
      by rewrite (bool_decide_ext _ _ Hiff).
Qed.

Lemma clusterRoleBindingToBeCollected_Exists
    (labelSelectors : gmap string string) (crb : ClusterRoleBinding)
    (namespace : string) :
  clusterRoleBindingToBeCollected labelSelectors (inr crb) namespace
  = (bool_decide
       (Exists (λ s, subjectInNamespace s namespace = (true, None))
          (Subjects crb)), None).
Proof.
  unfold clusterRoleBindingToBeCollected.
  rewrite scanSubjects_Exists. by case_bool_decide.
Qed.

(** X3: the binding scoper fails only when the object does not decode,
    and then with that error and [false]; on a decoded binding it returns
    [true] exactly when some subject of the binding is in the namespace,
    whatever the label selectors. *)
Theorem binding_scoper_relevance (labelSelectors : gmap string string)
    (crb : ClusterRoleBinding) (namespace : string) :
  clusterRoleBindingToBeCollected labelSelectors (inr crb) namespace
  = (bool_decide
       (Exists (λ s, subjectInNamespace s namespace = (true, None))
          (Subjects crb)), None)
  ∧ ∀ err,
      clusterRoleBindingToBeCollected labelSelectors (inl err) namespace
      = (false, Some err).
Proof.
  split; [|done]. unfold clusterRoleBindingToBeCollected.
  rewrite scanSubjects_Exists. by case_bool_decide.
Qed.

Lemma scanBindings_Exists (items : list ClusterRoleBinding)
    (name namespace : string) :
  scanBindings items name namespace
  = (bool_decide
       (Exists
          (λ crb, RoleRefName (Role crb) = name
                  ∧ Exists (λ s, subjectInNamespace s namespace = (true, None))
                      (Subjects crb)) items), None).
Proof.
  induction items as [|crb rest IH]; [done|].
  cbn [scanBindings].
  - case_decide as Hname.
    + rewrite scanSubjects_Exists.
      destruct (decide (Exists
                          (λ s, subjectInNamespace s namespace = (true, None))
                          (Subjects crb))) as [Hsub|Hsub].
      * rewrite (bool_decide_eq_true_2 _ Hsub).
        rewrite bool_decide_eq_true_2; [done|]. by apply Exists_cons_hd.
      * rewrite (bool_decide_eq_false_2 _ Hsub).
        rewrite IH. f_equal. apply bool_decide_ext. rewrite Exists_cons. tauto.
    + rewrite IH. f_equal. apply bool_decide_ext. rewrite Exists_cons. tauto.
Qed.

(** X4: the cluster role scoper fails with the error of the metadata
    access or, that obtained, with the error of the listing, and with
    [false]; otherwise it returns, without error, [true] exactly when some
    listed binding refers to the role by name and is itself to be collected
    for the namespace.  Bindings of other roles do not count. *)
Theorem cluster_role_scoper_relevance (labelSelectors : gmap string string)
    (metadata : ObjectMeta) (items : list ClusterRoleBinding)
    (namespace : string) :
  clusterRoleToBeCollected labelSelectors (inr metadata) (inr items) namespace
  = (bool_decide
       (Exists
          (λ crb, RoleRefName (Role crb) = MetaName metadata
                  ∧ clusterRoleBindingToBeCollected labelSelectors (inr crb)
                      namespace = (true, None)) items), None)
  ∧ (∀ err listed,
       clusterRoleToBeCollected labelSelectors (inl err) listed namespace
       = (false, Some err))
  ∧ (∀ err,
       clusterRoleToBeCollected labelSelectors (inr metadata) (inl err)
         namespace
       = (false, Some err)).
Proof.
  split; [|done]. unfold clusterRoleToBeCollected.
  rewrite scanBindings_Exists. f_equal. apply bool_decide_ext.
  apply Exists_proper; [|done]. intros crb.
  rewrite clusterRoleBindingToBeCollected_Exists.
  split; intros [Hname Hsub]; (split; [done|]).
  - by rewrite bool_decide_eq_true_2.
  - injection Hsub as Hsub. by apply bool_decide_eq_true in Hsub.
Qed.

End ScoperFacts.

(** ** The extractor, as a filter *)

Section ExtractorMore.
  Context `{NameValidation}.
  Context {U : Type} `{UnstructuredConverter U}.

Lemma matchCount_zero (subject : Subject) (namespaces : list string) :
  matchCount subject namespaces = 0%nat ↔ ¬ inSomeNamespace namespaces subject.
Proof.
  unfold inSomeNamespace.
  induction namespaces as [|ns rest IH].
  - split; [|done]. intros _ Hex. by apply Exists_nil in Hex.
  - rewrite matchCount_cons, Exists_cons.
    rewrite <- subjectInNamespace_fst_true.
    destruct (subjectInNamespace subject ns).1; simpl.
    + split; [lia|]. intros Hno. destruct Hno. by left.
    + rewrite IH. split; [|tauto]. intros Hno [?|?]; [done|tauto].
Qed.

  (** Among pairwise different namespaces a subject is in at most one. *)
Lemma matchCount_NoDup (subject : Subject) (namespaces : list string) :
  NoDup namespaces →
  matchCount subject namespaces
  = if decide (inSomeNamespace namespaces subject) then 1%nat else 0%nat.
Proof.
  intros Hnodup. case_decide as Hin; [|by apply matchCount_zero].
  unfold inSomeNamespace in Hin.
  induction Hnodup as [|ns rest Hnotin Hnodup IH].
  - by apply Exists_nil in Hin.
  - rewrite matchCount_cons.
    destruct (decide (subjectInNamespace subject ns = (true, None))) as [Hns|Hns].
    + rewrite (proj2 (subjectInNamespace_fst_true subject ns) Hns).
      assert (matchCount subject rest = 0%nat) as ->; [|done].
      apply matchCount_zero. unfold inSomeNamespace.
      rewrite Exists_exists. intros (ns' & Hin' & Hns').
      by rewrite (subjectInNamespace_unique subject ns ns' Hns Hns') in Hnotin.
    + apply Exists_cons in Hin as [?|Hin]; [done|]. rewrite (IH Hin).
      destruct (subjectInNamespace subject ns).1 eqn:Hfst; [|done].
      by apply subjectInNamespace_fst_true in Hfst.
Qed.

Lemma bind_replicate_filter (subjects : list Subject) (namespaces : list string) :
  NoDup namespaces →
  (subjects ≫= λ subject, replicate (matchCount subject namespaces) subject)
  = filter (inSomeNamespace namespaces) subjects.
Proof.
  intros Hnodup. induction subjects as [|s rest IH]; [done|].
  change ((s :: rest) ≫= ?f) with (f s ++ (rest ≫= f)).
  rewrite IH, filter_cons, (matchCount_NoDup _ _ Hnodup).
  by case_decide.
Qed.

  (** With pairwise different namespaces the extraction is a filter. *)
Lemma prepareClusterRoleBindingForCollection_filter
    (crb : ClusterRoleBinding) (namespaces : list string) :
  NoDup namespaces →
  prepareClusterRoleBindingForCollection crb namespaces
  = inr (setSubjects (filter (inSomeNamespace namespaces) (Subjects crb)) crb).
Proof.
  intros Hnodup. unfold prepareClusterRoleBindingForCollection.
  by rewrite collectSubjects_bind, (bind_replicate_filter _ _ Hnodup).
Qed.

(** X5: the extractor returns an error only when the object does not
    decode or its result does not encode, and then that error; otherwise the
    object is given the encoding of a binding that has the metadata and the
    role reference of the decoded one and whose subjects are exactly the
    decoded binding's subjects that are in one of the listed namespaces, none
    of them altered. *)
Theorem extractor_membership (object : U) (namespaces : list string) :
  (∀ err, FromUnstructured object = inl err →
     prepareClusterRoleBindingForCollectionObject object namespaces = inl err)
  ∧ (∀ crb, FromUnstructured object = inr crb →
       ∃ crb',
         prepareClusterRoleBindingForCollectionObject object namespaces
         = ToUnstructured crb'
         ∧ Meta crb' = Meta crb ∧ Role crb' = Role crb
         ∧ ∀ s, s ∈ Subjects crb'
                ↔ s ∈ Subjects crb ∧ inSomeNamespace namespaces s).
Proof.
  unfold prepareClusterRoleBindingForCollectionObject.
  split; [by intros err ->|]. intros crb ->.
  unfold prepareClusterRoleBindingForCollection.
  rewrite collectSubjects_bind. eexists. split; [reflexivity|].
  split; [done|]. split; [done|]. intros s. simpl.
  rewrite list_elem_of_bind. split.
  - intros (s' & Hrep & Hin). apply elem_of_replicate in Hrep as [-> Hcount].
    split; [done|].
    destruct (decide (inSomeNamespace namespaces s')) as [|Hno]; [done|].
    by apply matchCount_zero in Hno.
  - intros [Hin Hsome]. exists s. split; [|done].
    apply elem_of_replicate. split; [done|]. intros Hzero.
    by apply matchCount_zero in Hzero.
Qed.

(** X6: when the listed namespaces are pairwise different, the extractor
    is a filter: the object that decodes is given the encoding of a binding
    whose subjects are the decoded binding's subjects that are in one of the
    namespaces, in their order and each as often as the binding lists it, and
    whose metadata and role reference are those of the decoded binding. *)
Theorem extractor_filter (object : U) (crb : ClusterRoleBinding)
    (namespaces : list string) :
  NoDup namespaces →
  FromUnstructured object = inr crb →
  ∃ crb',
    prepareClusterRoleBindingForCollection crb namespaces = inr crb'
    ∧ prepareClusterRoleBindingForCollectionObject object namespaces
      = ToUnstructured crb'
    ∧ Subjects crb' = filter (inSomeNamespace namespaces) (Subjects crb)
    ∧ Meta crb' = Meta crb ∧ Role crb' = Role crb.
Proof.
  intros Hnodup Hdecode.
  unfold prepareClusterRoleBindingForCollectionObject. rewrite Hdecode.
  rewrite (prepareClusterRoleBindingForCollection_filter _ _ Hnodup).
  eexists. split; [reflexivity|]. split; [reflexivity|]. done.
Qed.

Lemma filter_twice (P : Subject → Prop) `{∀ x, Decision (P x)}
    (l : list Subject) :
  filter P (filter P l) = filter P l.
Proof.
  induction l as [|x l IH]; [done|]. rewrite filter_cons.
  case_decide as HP; [|done]. rewrite filter_cons.
  rewrite decide_True by done. by rewrite IH.
Qed.

(** X7: with pairwise different namespaces the extractor is idempotent:
    extracting again from its result, for the same namespaces, gives the same
    result. *)
Theorem extractor_idempotent (crb crb' : ClusterRoleBinding)
    (namespaces : list string) :
  NoDup namespaces →
  prepareClusterRoleBindingForCollection crb namespaces = inr crb' →
  prepareClusterRoleBindingForCollection crb' namespaces = inr crb'.
Proof.
  intros Hnodup.
  rewrite !(prepareClusterRoleBindingForCollection_filter _ _ Hnodup).
  intros [= <-]. simpl. by rewrite filter_twice.
Qed.

(** X8: the binding scoper and the extractor agree: a binding is to be
    collected for a namespace exactly when its extraction for that namespace
    alone leaves it a subject. *)
Theorem scoper_agrees_with_extractor (labelSelectors : gmap string string)
    (crb : ClusterRoleBinding) (namespace : string) :
  clusterRoleBindingToBeCollected labelSelectors (inr crb) namespace
  = (true, None)
  ↔ ∃ crb',
      prepareClusterRoleBindingForCollection crb [namespace] = inr crb'
      ∧ Subjects crb' ≠ [].
Proof.
  rewrite clusterRoleBindingToBeCollected_Exists.
  rewrite (prepareClusterRoleBindingForCollection_filter crb [namespace])
    by apply NoDup_singleton.
  split.
  - intros [= Hex]. apply bool_decide_eq_true in Hex.
    eexists. split; [reflexivity|]. simpl.
    apply Exists_exists in Hex as (s & Hin & Hs).
    intros Hnil.
    assert (s ∈ filter (inSomeNamespace [namespace]) (Subjects crb)) as Hs'.
    { apply list_elem_of_filter. split; [|done]. by apply Exists_cons_hd. }
    rewrite Hnil in Hs'. by apply elem_of_nil in Hs'.
  - intros (crb' & [= <-] & Hne). simpl in Hne.
    rewrite bool_decide_eq_true_2; [done|].
    destruct (filter (inSomeNamespace [namespace]) (Subjects crb))
      as [|s l] eqn:Hfilter; [done|].
    assert (s ∈ filter (inSomeNamespace [namespace]) (Subjects crb)) as Hs.
    { rewrite Hfilter. by apply elem_of_cons; left. }
    apply list_elem_of_filter in Hs as [Hsome Hin].
    apply Exists_exists. exists s. split; [done|].
    unfold inSomeNamespace in Hsome.
    apply Exists_cons in Hsome as [?|Hnil]; [done|].
    by apply Exists_nil in Hnil.
Qed.

End ExtractorMore.

(** ** User names, split and made *)

Section SplitFacts.
  Import gostrings.

Lemma Split_nonempty (s : string) (sep : ascii) : Split s sep ≠ [].
Proof.
  destruct s as [|c r]; simpl; [done|].
  case_decide; [done|]. by destruct (Split r sep).
Qed.

Lemma Split_singleton (s b : string) (sep : ascii) :
  Split s sep = [b] → s = b ∧ ContainsByte s sep = false.
Proof.
  revert b. induction s as [|c r IH]; intros b; simpl.
  - by intros [= <-].
  - case_decide as Hc.
    + intros [= _ Hr]. by apply Split_nonempty in Hr.
    + destruct (Split r sep) as [|p ps] eqn:Hr;
        [by apply Split_nonempty in Hr|].
      intros [= <- ->]. destruct (IH p eq_refl) as [-> Hno]. done.
Qed.

Lemma Split_pair (s a b : string) (sep : ascii) :
  Split s sep = [a; b] →
  s = a +:+ String sep b
  ∧ ContainsByte a sep = false ∧ ContainsByte b sep = false.
Proof.
  revert a. induction s as [|c r IH]; intros a; simpl; [done|].
  case_decide as Hc.
  - intros [= <- Hr]. apply Split_singleton in Hr as [-> Hno]. by subst c.
  - destruct (Split r sep) as [|p ps] eqn:Hr;
      [by apply Split_nonempty in Hr|].
    intros [= <- ->]. destruct (IH p eq_refl) as (-> & Hp & Hb).
    simpl. by rewrite decide_False.
Qed.

End SplitFacts.

Section UsernameFacts.
  Context `{NameValidation}.
  Import gostrings serviceaccount.

  (** A user name that splits is the user name made of its parts, and
      the parts are free of the separator and acceptable. *)
Lemma SplitUsername_inr (username namespace name : string) :
  SplitUsername username = inr (namespace, name) →
  username = MakeUsername namespace name
  ∧ ContainsByte namespace ServiceAccountUsernameSeparator = false
  ∧ ContainsByte name ServiceAccountUsernameSeparator = false
  ∧ ValidateNamespaceName namespace false = []
  ∧ ValidateServiceAccountName name false = [].
Proof.
  unfold SplitUsername, HasPrefix, TrimPrefix.
  destruct (stripPrefix ServiceAccountUsernamePrefix username)
    as [trimmed|] eqn:Hstrip; [|done].
  apply stripPrefix_Some in Hstrip. simpl negb. cbv iota.
  destruct (Split trimmed ServiceAccountUsernameSeparator)
    as [|a [|b [|]]] eqn:Hsplit; try done.
  apply Split_pair in Hsplit as (-> & Ha & Hb).
  destruct (ValidateNamespaceName a false) eqn:Hva; [|done].
  destruct (ValidateServiceAccountName b false) eqn:Hvb; [|done].
  simpl. intros [= <- <-]. done.
Qed.

End UsernameFacts.

(** ** The remapper, subject by subject *)

Section RemapperMore.
  Context `{NameValidation}.
  Context {U : Type} `{UnstructuredConverter U}.
  Import gostrings serviceaccount.

(** X9: the remapper renames a matched User subject from
    [system:serviceaccount:<source>:<account>] to
    [system:serviceaccount:<destination>:<account>], the account kept, and
    leaves its kind, API group and namespace field as they were. *)
Theorem remap_user_keeps_account (subject : Subject) (src dst : string) :
  Kind subject = UserKind →
  subjectInNamespace subject src = (true, None) →
  ∃ acct subject',
    Name subject = MakeUsername src acct
    ∧ rewriteSubject subject dst = inr subject'
    ∧ Name subject' = MakeUsername dst acct
    ∧ Kind subject' = Kind subject ∧ APIGroup subject' = APIGroup subject
    ∧ Namespace subject' = Namespace subject.
Proof.
  intros Hkind Hin. apply subjectInNamespace_true in Hin.
  unfold namespaceOf in Hin. unfold rewriteSubject.
  rewrite Hkind in *. rewrite decide_False in Hin by done.
  rewrite decide_True in Hin by done. rewrite decide_True by done.
  destruct (SplitUsername (Name subject)) as [err|[ns acct]] eqn:Hsplit;
    [done|].
  injection Hin as ->.
  apply SplitUsername_inr in Hsplit as (Hname & _).
  exists acct. eexists. split; [exact Hname|]. split; [reflexivity|]. done.
Qed.

(** X10: what the remapper writes for a matched ServiceAccount is in the
    destination namespace for the classifier, and so is what it writes for a
    matched User when the destination namespace has no colon and is an
    acceptable namespace name. *)
Theorem remapped_subject_in_destination (subject subject' : Subject)
    (src dst : string) :
  subjectInNamespace subject src = (true, None) →
  rewriteSubject subject dst = inr subject' →
  Kind subject = ServiceAccountKind
  ∨ (Kind subject = UserKind
     ∧ ContainsByte dst ServiceAccountUsernameSeparator = false
     ∧ ValidateNamespaceName dst false = []) →
  subjectInNamespace subject' dst = (true, None).
Proof.
  intros Hin Hrw [Hkind|(Hkind & Hdst & Hvalid)].
  - unfold rewriteSubject in Hrw. rewrite Hkind in Hrw.
    rewrite decide_False in Hrw by done. rewrite decide_False in Hrw by done.
    rewrite decide_True in Hrw by done. injection Hrw as <-.
    unfold subjectInNamespace. simpl. rewrite Hkind.
    rewrite decide_True by done. by rewrite decide_True.
  - apply subjectInNamespace_true in Hin. unfold namespaceOf in Hin.
    unfold rewriteSubject in Hrw. rewrite Hkind in *.
    rewrite decide_False in Hin by done. rewrite decide_True in Hin by done.
    rewrite decide_True in Hrw by done.
    destruct (SplitUsername (Name subject)) as [err|[ns acct]] eqn:Hsplit;
      [done|].
    injection Hrw as <-.
    apply SplitUsername_inr in Hsplit as (_ & _ & Hacct & _ & Hvacct).
    unfold subjectInNamespace. simpl. rewrite Hkind.
    rewrite decide_False by done. rewrite decide_True by done.
    rewrite (SplitUsername_MakeUsername dst acct Hdst Hacct Hvalid Hvacct).
    by rewrite decide_True.
Qed.

Lemma bind_app_Permutation {A B : Type} (f g : A → list B) (l : list A) :
  l ≫= (λ x, f x ++ g x) ≡ₚ (l ≫= f) ++ (l ≫= g).
Proof.
  induction l as [|x l IH]; [done|]. rewrite !bind_cons, IH.
  rewrite <- !app_assoc. apply Permutation_app_head.
  apply Permutation_app_swap_app.
Qed.

Lemma remappedFor_cons (src dst : string) (s : Subject) (rest : list Subject) :
  remappedFor src dst (s :: rest)
  = remappedFor src dst [s] ++ remappedFor src dst rest.
Proof. unfold remappedFor. by rewrite <- omap_app. Qed.

Lemma remappedFor_single (src dst : string) (s : Subject) :
  remappedFor src dst [s]
  = if decide (namespaceOf s = Some src)
    then option_list (remapped {[src := dst]} s) else [].
Proof.
  unfold remappedFor, remapped. simpl.
  rewrite subjectInNamespace_namespaceOf. simpl.
  case_decide as Hns.
  - rewrite (bool_decide_eq_true_2 _ Hns), Hns. simpl.
    rewrite lookup_singleton_eq. simpl.
    by destruct (rewriteSubject s dst).
  - by rewrite (bool_decide_eq_false_2 _ Hns).
Qed.

  (** Over the entries of a mapping, each under a different key, a
      subject is rewritten once if the mapping has its namespace, and not at
      all otherwise. *)
Lemma bind_remappedFor_single (order : list (string * string)) (s : Subject) :
  NoDup (order.*1) →
  order ≫= (λ entry, remappedFor entry.1 entry.2 [s])
  = option_list (remapped (list_to_map order) s).
Proof.
  induction order as [|[src dst] rest IH]; intros Hnodup.
  - unfold remapped. simpl. destruct (namespaceOf s); [|done]. simpl.
    by rewrite lookup_empty.
  - apply NoDup_cons in Hnodup as [Hnotin Hnodup].
    rewrite bind_cons, (IH Hnodup). cbn [fst snd].
    rewrite remappedFor_single, list_to_map_cons.
    unfold remapped. destruct (namespaceOf s) as [ns|] eqn:Hns; simpl.
    + case_decide as Heq.
      * injection Heq as ->.
        rewrite lookup_insert_eq, lookup_singleton_eq.
        rewrite (not_elem_of_list_to_map_1 rest src Hnotin). simpl.
        by rewrite app_nil_r.
      * rewrite lookup_insert_ne by congruence. done.
    + done.
Qed.

Lemma bind_remappedFor_omap (m : gmap string string)
    (order : list (string * string)) (subjects : list Subject) :
  range_order m order →
  order ≫= (λ entry, remappedFor entry.1 entry.2 subjects)
  ≡ₚ omap (remapped m) subjects.
Proof.
  intros Horder. unfold range_order in Horder.
  assert (NoDup (order.*1)) as Hnodup.
  { rewrite Horder. apply NoDup_fst_map_to_list. }
  assert (list_to_map order = m) as Hm.
  { symmetry. apply list_to_map_flip. by symmetry. }
  induction subjects as [|s rest IH].
  - assert (order ≫= (λ entry, remappedFor entry.1 entry.2 []) = []) as ->;
      [|done].
    clear. induction order as [|e l IHl]; [done|]. by rewrite bind_cons, IHl.
  - erewrite (list_bind_ext _ _ order order);
      [|intros entry; apply remappedFor_cons|reflexivity].
    rewrite bind_app_Permutation, IH.
    rewrite (bind_remappedFor_single order s Hnodup), Hm.
    simpl. by destruct (remapped m s).
Qed.

Lemma length_omap_le {A B : Type} (f : A → option B) (l : list A) :
  (length (omap f l) ≤ length l)%nat.
Proof.
  induction l as [|x l IH]; [done|]. csimpl.
  destruct (f x); simpl; lia.
Qed.

(** X11: the remapper emits every subject at most once: for an object
    that decodes, every run gives the encoding of a binding whose subjects
    are, up to order, the rewrites of exactly those subjects of the decoded
    binding whose namespace is a key of the mapping, each rewritten for the
    destination the mapping gives that namespace; so it has no more subjects
    than the decoded binding. *)
Theorem remap_once_per_subject (object : U) (crb : ClusterRoleBinding)
    (m : gmap string string) σ t σ' r :
  FromUnstructured object = inr crb →
  runs σ (prepareClusterRoleBindingForApplyObject object m) t σ' r →
  ∃ crb',
    r = ToUnstructured crb'
    ∧ Subjects crb' ≡ₚ omap (remapped m) (Subjects crb)
    ∧ (length (Subjects crb') ≤ length (Subjects crb))%nat.
Proof.
  intros Hdecode Hrun.
  apply prepareClusterRoleBindingForApplyObject_runs_inv in Hrun
    as (_ & _ & Hr).
  rewrite Hdecode in Hr. destruct Hr as (order & Horder & ->).
  rewrite applyMappings_bind.
  eexists. split; [reflexivity|]. simpl.
  pose proof (bind_remappedFor_omap m order (Subjects crb) Horder) as Hperm.
  split; [exact Hperm|].
  rewrite (Permutation_length Hperm). apply length_omap_le.
Qed.

End RemapperMore.

(** ** Collection followed by application *)

Section Pipeline.
  Context `{NameValidation}.

Lemma remappedFor_filter_in (src dst : string) (namespaces : list string)
    (subjects : list Subject) :
  src ∈ namespaces →
  remappedFor src dst (filter (inSomeNamespace namespaces) subjects)
  = remappedFor src dst subjects.
Proof.
  intros Hsrc. induction subjects as [|s rest IH]; [done|].
  rewrite filter_cons. case_decide as Hin.
  - by rewrite (remappedFor_cons _ _ s rest), remappedFor_cons, IH.
  - rewrite IH, (remappedFor_cons _ _ s rest).
    assert (remappedFor src dst [s] = []) as ->; [|done].
    unfold remappedFor. simpl.
    destruct (subjectInNamespace s src).1 eqn:Hs; [|done].
    destruct Hin. apply Exists_exists. exists src. split; [done|].
    by apply subjectInNamespace_fst_true.
Qed.

(** X12: extraction loses nothing the remapper would emit: when the
    listed namespaces are pairwise different and include every source
    namespace of the mapping, the remapper has the same runs, with the same
    results, on the extracted binding as on the binding itself. *)
Theorem remap_after_extraction (crb crb' : ClusterRoleBinding)
    (namespaces : list string) (m : gmap string string) σ t σ' r :
  NoDup namespaces →
  (∀ src dst, m !! src = Some dst → src ∈ namespaces) →
  prepareClusterRoleBindingForCollection crb namespaces = inr crb' →
  runs σ (prepareClusterRoleBindingForApply crb' m) t σ' r
  ↔ runs σ (prepareClusterRoleBindingForApply crb m) t σ' r.
Proof.
  intros Hnodup Hdom.
  rewrite (prepareClusterRoleBindingForCollection_filter _ _ Hnodup).
  intros [= <-].
  assert (∀ order, range_order m order →
    order ≫= (λ entry, remappedFor entry.1 entry.2
                         (filter (inSomeNamespace namespaces) (Subjects crb)))
    = order ≫= (λ entry, remappedFor entry.1 entry.2 (Subjects crb)))
    as Hsame.
  { intros order Horder. apply Forall_bind_ext. apply Forall_forall.
    intros [src dst] Hentry. apply remappedFor_filter_in.
    apply (Hdom src dst). apply elem_of_map_to_list.
    unfold range_order in Horder. by rewrite <- Horder. }
  split; intros Hrun;
    apply prepareClusterRoleBindingForApply_runs_inv in Hrun
      as (-> & -> & order & Horder & ->).
  - pose proof (prepareClusterRoleBindingForApply_runs crb m σ order Horder)
      as Hrun.
    rewrite <- (Hsame order Horder) in Hrun. exact Hrun.
  - pose proof (prepareClusterRoleBindingForApply_runs
      (setSubjects (filter (inSomeNamespace namespaces) (Subjects crb)) crb)
      m σ order Horder) as Hrun.
    simpl in Hrun. by rewrite (Hsame order Horder) in Hrun.
Qed.

End Pipeline.

(** ** The merger and the cluster *)

Section MergerMore.
  Context `{Stringer Subject}.
  Implicit Types (σ : gmap string ClusterRoleBinding).

(** X13: on a cluster that stores its bindings under their names, a
    merge, whether it creates or updates and whether or not the write is
    accepted, changes no binding other than the one named as the incoming
    binding, and leaves every binding stored under its own name. *)
Theorem merge_touches_only_its_binding (newCRB : ClusterRoleBinding)
    σ t σ' r :
  cluster_wf σ →
  runs σ (mergeAndUpdateClusterRoleBinding newCRB) t σ' r →
  cluster_wf σ'
  ∧ ∀ name, name ≠ MetaName (Meta newCRB) → σ' !! name = σ !! name.
Proof.
  intros Hwf Hrun.
  apply mergeAndUpdateClusterRoleBinding_runs_inv in Hrun
    as [(err & _ & _ & -> & ->)
       |[(err & resp & _ & Hnone & _ & -> & Hσ')
        |(cur & order & resp & Hget & Horder & _ & -> & Hσ')]].
  - done.
  - destruct resp as [e|crb']; [by subst σ'|]. destruct Hσ' as [_ ->].
    split.
    + intros name crb. rewrite lookup_insert. case_decide; [|by apply Hwf].
      by intros [= <-].
    + intros name Hne. by rewrite lookup_insert_ne.
  - destruct resp as [e|crb']; [by subst σ'|]. destruct Hσ' as (_ & _ & ->).
    rewrite (Hwf _ _ Hget). split.
    + intros name crb. rewrite lookup_insert. case_decide; [|by apply Hwf].
      intros [= <-]. simpl. subst name. by apply (Hwf _ _ Hget).
    + intros name Hne. by rewrite lookup_insert_ne.
Qed.

(** X14: after a merge that succeeded, on a cluster that stores its
    bindings under their names, the destination binding exists and loses no
    identity: for every incoming subject it holds an incoming subject of the
    same identity, and for every subject the destination held before it holds
    a subject of the same identity. *)
Theorem merge_covers_identities (newCRB : ClusterRoleBinding) σ t σ' :
  cluster_wf σ →
  runs σ (mergeAndUpdateClusterRoleBinding newCRB) t σ' None →
  ∃ crb',
    σ' !! MetaName (Meta newCRB) = Some crb'
    ∧ (∀ s, s ∈ Subjects newCRB →
         ∃ s', s' ∈ Subjects crb' ∧ s' ∈ Subjects newCRB
               ∧ String_ s' = String_ s)
    ∧ (∀ currentCRB d,
         σ !! MetaName (Meta newCRB) = Some currentCRB →
         d ∈ Subjects currentCRB →
         ∃ d', d' ∈ Subjects crb' ∧ String_ d' = String_ d).
Proof.
  intros Hwf Hrun.
  apply mergeAndUpdateClusterRoleBinding_runs_inv in Hrun
    as [(err & _ & _ & [=] & _)
       |[(err & resp & _ & Hnone & _ & Hr & Hσ')
        |(cur & order & resp & Hget & Horder & _ & Hr & Hσ')]].
  - destruct resp as [e|crb']; [done|]. destruct Hσ' as [_ ->].
    exists newCRB. split; [by rewrite lookup_insert_eq|]. split.
    + intros s Hs. by exists s.
    + intros currentCRB d Hcur. congruence.
  - destruct resp as [e|crb']; [done|]. destruct Hσ' as (_ & _ & ->).
    rewrite (Hwf _ _ Hget).
    exists (setSubjects (order.*2) cur).
    split; [by rewrite lookup_insert_eq|]. simpl. split.
    + intros s Hs.
      destruct (subjectsByIdentity_is_Some _ _ Hs) as [s' Hs'].
      exists s'. split.
      * apply (elem_of_range_values _ _ _ Horder). exists (String_ s).
        unfold mergedSubjects. by apply lookup_union_Some_l.
      * by apply subjectsByIdentity_Some in Hs'.
    + intros currentCRB d Hcur Hd. rewrite Hget in Hcur.
      injection Hcur as <-.
      destruct (subjectsByIdentity_is_Some _ _ Hd) as [d1 Hd1].
      destruct (subjectsByIdentity (Subjects newCRB) !! String_ d)
        as [d2|] eqn:Hd2.
      * exists d2. split.
        -- apply (elem_of_range_values _ _ _ Horder). exists (String_ d).
           unfold mergedSubjects. by apply lookup_union_Some_l.
        -- by apply subjectsByIdentity_Some in Hd2 as [_ ?].
      * exists d1. split.
        -- apply (elem_of_range_values _ _ _ Horder). exists (String_ d).
           unfold mergedSubjects. apply lookup_union_Some_raw. by right.
        -- by apply subjectsByIdentity_Some in Hd1 as [_ ?].
Qed.

Lemma NoDup_identity_consistent (subjects : list Subject) :
  NoDup (String_ <$> subjects) → identityConsistent subjects.
Proof.
  induction subjects as [|x l IH]; intros Hnodup s1 s2 Hs1 Hs2 Heq.
  - by apply elem_of_nil in Hs1.
  - rewrite fmap_cons in Hnodup. apply NoDup_cons in Hnodup as [Hx Hl].
    apply elem_of_cons in Hs1 as [->|Hs1]; apply elem_of_cons in Hs2 as [->|Hs2].
    + done.
    + destruct Hx. rewrite Heq. by apply list_elem_of_fmap_2.
    + destruct Hx. rewrite <- Heq. by apply list_elem_of_fmap_2.
    + by apply (IH Hl).
Qed.

(** X15: merging subjects the destination already holds changes nothing
    but the order: when the get finds a binding whose subjects have pairwise
    different identities, and every incoming subject is among them, the
    update writes the same subjects, each once. *)
Theorem merge_of_present_subjects (newCRB currentCRB : ClusterRoleBinding)
    σ t σ' r :
  NoDup (String_ <$> Subjects currentCRB) →
  (∀ s, s ∈ Subjects newCRB → s ∈ Subjects currentCRB) →
  runs σ (mergeAndUpdateClusterRoleBinding newCRB)
    (CallGet (MetaName (Meta newCRB)) (inr currentCRB) :: t) σ' r →
  ∃ subjects resp,
    t = [CallUpdate (setSubjects subjects currentCRB) resp]
    ∧ subjects ≡ₚ Subjects currentCRB.
Proof.
  intros Hnodup Hsub Hrun.
  apply mergeAndUpdateClusterRoleBinding_runs_inv in Hrun
    as [(err & ? & [=] & ?)
       |[(err & resp & ? & ? & [=] & ?)
        |(cur & order & resp & Hget & Horder & [= -> ->] & Hr & Hσ')]].
  exists (order.*2), resp. split; [done|].
  assert (mergedSubjects (Subjects cur) (Subjects newCRB)
          = subjectsByIdentity (Subjects cur)) as Hmerged.
  { unfold mergedSubjects. apply map_eq. intros k. rewrite lookup_union.
    destruct (subjectsByIdentity (Subjects newCRB) !! k) as [s|] eqn:Hk;
      [|by destruct (subjectsByIdentity (Subjects cur) !! k)].
    apply subjectsByIdentity_Some in Hk as [Hin <-].
    rewrite (subjectsByIdentity_consistent (Subjects cur) s);
      [done|by apply NoDup_identity_consistent|by apply Hsub]. }
  unfold range_order in Horder. rewrite Hmerged in Horder.
  unfold subjectsByIdentity in Horder.
  rewrite map_to_list_to_map in Horder.
  - rewrite Horder, reverse_Permutation.
    rewrite <- list_fmap_compose. by rewrite list_fmap_id.
  - rewrite fmap_reverse, reverse_Permutation.
    by rewrite <- list_fmap_compose.
Qed.

End MergerMore.

(** ** The further properties at concrete bindings *)

Section MoreExamples.
  Import Example.

Lemma two_namespaces_NoDup : NoDup ["ns-a"; "ns-b"].
Proof.
  apply NoDup_cons. split; [|apply NoDup_singleton].
  intros Hin. by apply list_elem_of_singleton in Hin.
Defined.

Lemma twoMappings_sources (src dst : string) :
  twoMappings !! src = Some dst → src ∈ ["ns-a"; "ns-b"].
Proof.
  unfold twoMappings. intros Hm.
  apply lookup_insert_Some in Hm as [[<- _]|[_ Hm]].
  - apply elem_of_cons. by left.
  - apply lookup_singleton_Some in Hm as [<- _].
    apply elem_of_cons. right. by apply list_elem_of_singleton.
Defined.

(** Of [sa1], [user1] and [group1], with ns-a and ns-b listed, the
    extractor keeps [sa1] and [user1]. *)
Lemma extractor_filter_witness :
  ∃ crb',
    @prepareClusterRoleBindingForCollection dns1123.validation
      (mkClusterRoleBinding meta [sa1; user1; group1] role) ["ns-a"; "ns-b"]
    = inr crb'
    ∧ @prepareClusterRoleBindingForCollectionObject dns1123.validation _
        converter
        (Some (mkClusterRoleBinding meta [sa1; user1; group1] role))
        ["ns-a"; "ns-b"]
      = inr (Some crb')
    ∧ Subjects crb'
      = filter (@inSomeNamespace dns1123.validation ["ns-a"; "ns-b"])
          [sa1; user1; group1]
    ∧ Meta crb' = meta ∧ Role crb' = role.
Proof.
  apply (@extractor_filter dns1123.validation _ converter
           (Some (mkClusterRoleBinding meta [sa1; user1; group1] role))
           (mkClusterRoleBinding meta [sa1; user1; group1] role)
           ["ns-a"; "ns-b"] two_namespaces_NoDup).
  reflexivity.
Defined.

(** Extracting again from that result gives it back. *)
Lemma extractor_idempotent_witness :
  @prepareClusterRoleBindingForCollection dns1123.validation
    (mkClusterRoleBinding meta [sa1; user1] role) ["ns-a"; "ns-b"]
  = inr (mkClusterRoleBinding meta [sa1; user1] role).
Proof.
  apply (@extractor_idempotent dns1123.validation
           (mkClusterRoleBinding meta [sa1; user1; group1] role)
           (mkClusterRoleBinding meta [sa1; user1] role)
           ["ns-a"; "ns-b"] two_namespaces_NoDup).
  reflexivity.
Defined.

(** The user [user1] of ns-b becomes the user of the same account in
    ns-d. *)
Lemma remap_user_keeps_account_witness :
  ∃ acct subject',
    Name user1 = serviceaccount.MakeUsername "ns-b" acct
    ∧ @rewriteSubject dns1123.validation user1 "ns-d" = inr subject'
    ∧ Name subject' = serviceaccount.MakeUsername "ns-d" acct
    ∧ Kind subject' = Kind user1 ∧ APIGroup subject' = APIGroup user1
    ∧ Namespace subject' = Namespace user1.
Proof.
  apply (@remap_user_keeps_account dns1123.validation user1 "ns-b" "ns-d");
    reflexivity.
Defined.

(** The rewrite of [sa1] for ns-c is in ns-c. *)
Lemma remapped_subject_in_destination_witness :
  @subjectInNamespace dns1123.validation (setNamespace "ns-c" sa1) "ns-c"
  = (true, None).
Proof.
  apply (@remapped_subject_in_destination dns1123.validation
           sa1 (setNamespace "ns-c" sa1) "ns-a" "ns-c");
    [reflexivity|reflexivity|by left].
Defined.

(** The remap of the object that holds [sa1] and [sa2] under the two
    mappings has two subjects. *)
Lemma remap_once_per_subject_witness :
  ∃ crb',
    (inr (Some (setSubjects [setNamespace "ns-c" sa1; setNamespace "ns-d" sa2]
                  twoBinding))
       : error + option ClusterRoleBinding)
    = inr (Some crb')
    ∧ Subjects crb' ≡ₚ omap (@remapped dns1123.validation twoMappings)
                         (Subjects twoBinding)
    ∧ (length (Subjects crb') ≤ length (Subjects twoBinding))%nat.
Proof.
  apply (@remap_once_per_subject dns1123.validation _ converter
           (Some twoBinding) twoBinding twoMappings ∅ [] ∅ _ eq_refl
           (@prepareClusterRoleBindingForApplyObject_runs
              dns1123.validation _ converter (Some twoBinding) twoBinding
              _ ∅ _ eq_refl twoMappings_order_ab)).
Defined.

(** The binding of [sa1], [bob] and [sa2] is extracted for ns-a and ns-b
    to the binding of [sa1] and [sa2], and the two remap alike. *)
Lemma remap_after_extraction_witness :
  runs ∅
    (@prepareClusterRoleBindingForApply dns1123.validation twoBinding
       twoMappings) [] ∅
    (inr (mkClusterRoleBinding meta
            [setNamespace "ns-c" sa1; setNamespace "ns-d" sa2] role))
  ↔ runs ∅
      (@prepareClusterRoleBindingForApply dns1123.validation
         (mkClusterRoleBinding meta [sa1; bob; sa2] role) twoMappings) [] ∅
      (inr (mkClusterRoleBinding meta
              [setNamespace "ns-c" sa1; setNamespace "ns-d" sa2] role)).
Proof.
  apply (@remap_after_extraction dns1123.validation
           (mkClusterRoleBinding meta [sa1; bob; sa2] role) twoBinding
           ["ns-a"; "ns-b"] twoMappings ∅ [] ∅ _
           two_namespaces_NoDup twoMappings_sources).
  reflexivity.
Defined.

Lemma empty_cluster_wf : cluster_wf ∅.
Proof. intros name crb Hlookup. by rewrite lookup_empty in Hlookup. Defined.

Lemma twoCluster_wf : cluster_wf twoCluster.
Proof.
  intros name crb Hlookup. unfold twoCluster in Hlookup.
  apply lookup_insert_Some in Hlookup as [[<- <-]|[_ Hlookup]]; [done|].
  by apply lookup_singleton_Some in Hlookup as [<- <-].
Defined.

Lemma twoCluster_merge_run :
  runs twoCluster
    (@mergeAndUpdateClusterRoleBinding Subject_String incomingBinding)
    [CallGet "view-binding" (inr destBinding);
     CallUpdate writtenBinding (inr writtenBinding)]
    (<["view-binding" := writtenBinding]> twoCluster) None.
Proof.
  pose proof (@mergeAndUpdateClusterRoleBinding_runs_update Subject_String
    incomingBinding destBinding twoCluster
    (map_to_list
       (@mergedSubjects Subject_String (Subjects destBinding)
          (Subjects incomingBinding)))
    (inr writtenBinding) (<["view-binding" := writtenBinding]> twoCluster))
    as Hrun.
  apply Hrun.
  - by vm_compute.
  - by unfold range_order.
  - split; [by vm_compute|]. split.
    + exists destBinding. by vm_compute.
    + simpl.
      by replace (setSubjects _ destBinding) with writtenBinding
        by by vm_compute.
Defined.

(** The merge into the binding of a cluster of two updates that binding
    and leaves the other, and both stay under their names. *)
Lemma merge_touches_only_its_binding_witness :
  cluster_wf (<["view-binding" := writtenBinding]> twoCluster)
  ∧ (<["view-binding" := writtenBinding]> twoCluster) !! "other-binding"
    = Some otherBinding.
Proof.
  destruct (@merge_touches_only_its_binding Subject_String incomingBinding
              twoCluster _ _ _ twoCluster_wf twoCluster_merge_run)
    as [Hwf Hframe].
  split; [exact Hwf|].
  rewrite (Hframe "other-binding") by discriminate. by vm_compute.
Defined.

(** After the first merge into the empty cluster the binding holds the
    incoming subjects. *)
Lemma merge_covers_identities_witness :
  ∃ crb',
    ({["view-binding" := twoBinding]} : gmap string ClusterRoleBinding)
      !! MetaName (Meta twoBinding) = Some crb'
    ∧ (∀ s, s ∈ Subjects twoBinding →
         ∃ s', s' ∈ Subjects crb' ∧ s' ∈ Subjects twoBinding
               ∧ Subject_String s' = Subject_String s)
    ∧ (∀ currentCRB d,
         (∅ : gmap string ClusterRoleBinding) !! MetaName (Meta twoBinding)
         = Some currentCRB →
         d ∈ Subjects currentCRB →
         ∃ d', d' ∈ Subjects crb' ∧ Subject_String d' = Subject_String d).
Proof.
  exact (@merge_covers_identities Subject_String twoBinding ∅ _ _
           empty_cluster_wf merge_first_run).
Defined.

Lemma twoBinding_identities_NoDup :
  NoDup (Subject_String <$> Subjects twoBinding).
Proof.
  apply NoDup_cons. split; [|apply NoDup_singleton].
  intros Hin. by apply list_elem_of_singleton in Hin.
Defined.

(** The second merge of [sa1] and [sa2] writes [sa1] and [sa2]. *)
Lemma merge_of_present_subjects_witness :
  ∃ subjects resp,
    [CallUpdate twoBinding (inr twoBinding)]
    = [CallUpdate (setSubjects subjects twoBinding) resp]
    ∧ subjects ≡ₚ Subjects twoBinding.
Proof.
  apply (@merge_of_present_subjects Subject_String twoBinding twoBinding
           _ _ _ _ twoBinding_identities_NoDup (λ s Hs, Hs) merge_second_run).
Defined.

End MoreExamples.
